(** * black-lotus: the agent pipeline and its artifact extractor

    A shallow embedding of the Go packages [agents] and [config] of
    black-lotus, and of the orchestrator as the specification describes it.

    Go strings are byte sequences: they are modelled as [string], whose
    characters are the 256 values of [ascii].  A slice is a [list]; the
    [map[string]string] that carries context between agents is a
    [gmap string string].  Go's [error] values are the inductive [error];
    a [Run], which returns either a result and a nil error or a nil result
    and an error, returns a sum, from which the two are read as options. *)

From Stdlib Require Import Ascii String DecimalString DecimalNat.
From stdpp Require Import gmap strings list fin_maps.

Local Open Scope string_scope.
Local Open Scope list_scope.

(** ** Package [strings] of the Go library, as far as the program uses it *)

Module strings.

(** The line feed, Go's ["\n"]. *)
Definition LF : ascii := ascii_of_nat 10.
Definition newline : string := String LF "".
Definition colon : ascii := ":"%char.

(** [strings.HasPrefix(s, prefix)]. *)
Definition HasPrefix (s prefix : string) : bool := String.prefix prefix s.

Fixpoint drop (n : nat) (s : string) : string :=
  match n, s with
  | O, _ => s
  | S n', String _ s' => drop n' s'
  | S _, EmptyString => EmptyString
  end.

Fixpoint take (n : nat) (s : string) : string :=
  match n, s with
  | O, _ => EmptyString
  | S n', String c s' => String c (take n' s')
  | S _, EmptyString => EmptyString
  end.

(** [strings.TrimPrefix(s, prefix)]: [s[len(prefix):]] when [s] starts
    with [prefix], and [s] otherwise. *)
Definition TrimPrefix (s prefix : string) : string :=
  if HasPrefix s prefix then drop (String.length prefix) s else s.

(** [strings.Split(s, sep)] for a separator of one byte, which is what the
    program passes (["\n"]): the pieces between the separators, one more
    than there are separators. *)
Fixpoint Split (s : string) (sep : ascii) : list string :=
  match s with
  | EmptyString => [EmptyString]
  | String c s' =>
      if Ascii.eqb c sep then EmptyString :: Split s' sep
      else match Split s' sep with
           | h :: t => String c h :: t
           | [] => [String c EmptyString]
           end
  end.

(** The first occurrence of [sep] cuts [s] in the text before it and the
    text after it. *)
Fixpoint cut (s : string) (sep : ascii) : option (string * string) :=
  match s with
  | EmptyString => None
  | String c s' =>
      if Ascii.eqb c sep then Some (EmptyString, s')
      else match cut s' sep with
           | Some (before, after) => Some (String c before, after)
           | None => None
           end
  end.

(** [strings.SplitN(s, sep, 2)] for a separator of one byte: at most two
    pieces, the second one holding everything after the first separator. *)
Definition SplitN2 (s : string) (sep : ascii) : list string :=
  match cut s sep with
  | Some (before, after) => [before; after]
  | None => [s]
  end.

(** [strings.Join(elems, sep)]. *)
Definition Join (elems : list string) (sep : string) : string :=
  String.concat sep elems.

(** The UTF-8 encodings of the runes for which [unicode.IsSpace] holds:
    U+0009..U+000D, U+0020, U+0085, U+00A0, U+1680, U+2000..U+200A,
    U+2028, U+2029, U+202F, U+205F and U+3000. *)
Definition spaceBytes : list (list nat) :=
  [ [9]; [10]; [11]; [12]; [13]; [32];
    [194; 133]; [194; 160];
    [225; 154; 128];
    [226; 128; 128]; [226; 128; 129]; [226; 128; 130]; [226; 128; 131];
    [226; 128; 132]; [226; 128; 133]; [226; 128; 134]; [226; 128; 135];
    [226; 128; 136]; [226; 128; 137]; [226; 128; 138];
    [226; 128; 168]; [226; 128; 169]; [226; 128; 175];
    [226; 129; 159];
    [227; 128; 128] ].

Definition encode (bs : list nat) : string :=
  string_of_list_ascii (map ascii_of_nat bs).

Definition spaces : list string := map encode spaceBytes.
Definition spacesRev : list string := map (fun bs => encode (rev bs)) spaceBytes.

(** Width in bytes of the space rune that [s] starts with, [0] when [s]
    does not start with one.  No encoding of the table is a prefix of
    another one, so the first match is the only one. *)
Definition spaceWidth (table : list string) (s : string) : nat :=
  match List.find (fun e => String.prefix e s) table with
  | Some e => String.length e
  | None => 0
  end.

Fixpoint trimLeading (table : list string) (fuel : nat) (s : string) : string :=
  match fuel with
  | O => s
  | S fuel' =>
      match spaceWidth table s with
      | O => s
      | S w => trimLeading table fuel' (drop (S w) s)
      end
  end.

(** [strings.TrimLeftFunc(s, unicode.IsSpace)]: decoding from the left,
    a rune is a space exactly when the bytes in front are one of the
    encodings of [spaces]. *)
Definition TrimLeftSpace (s : string) : string :=
  trimLeading spaces (String.length s) s.

(** [strings.TrimRightFunc(s, unicode.IsSpace)]: decoding from the right,
    the last rune is a space exactly when the string ends in one of the
    encodings; the reversed string is trimmed against the reversed table. *)
Definition TrimRightSpace (s : string) : string :=
  String.rev (trimLeading spacesRev (String.length s) (String.rev s)).

(** [strings.TrimSpace(s)].  The library trims ASCII space bytes on a fast
    path and falls back to the rune-aware functions at the first byte
    above 127; both paths return [s] without its leading and trailing
    space runes. *)
Definition TrimSpace (s : string) : string :=
  TrimRightSpace (TrimLeftSpace s).

End strings.

(** The byte [c] occurs in [s]. *)
Fixpoint occurs (c : ascii) (s : string) : Prop :=
  match s with
  | EmptyString => False
  | String x s' => x = c \/ occurs c s'
  end.

(** [fmt.Sprintf("%d", n)] for a non-negative [n]. *)
Definition itoa (n : nat) : string := NilZero.string_of_uint (Nat.to_uint n).

(** ** Package [agents]: artifacts and their extraction (base.go) *)

(** [type Artifact struct { Filename, Content, Language string }] *)
Record Artifact := mkArtifact {
  Filename : string;
  Content : string;
  Language : string
}.

Definition setFilename (art : Artifact) (name : string) : Artifact :=
  {| Filename := name; Content := Content art; Language := Language art |}.

(** The fence delimiter and the two filename-hint prefixes. *)
Definition fence : string := "```".
Definition hintSlash : string := "// file:".
Definition hintHash : string := "# file:".

(** The local variables of [ParseArtifacts] that live across the
    iterations of its loop. *)
Record scan := mkScan {
  inBlock : bool;
  lang : string;
  filename : string;
  blockLines : list string;
  artifacts : list Artifact
}.

(** [var artifacts []Artifact; var inBlock bool; var lang, filename string;
    var blockLines []string] *)
Definition scanStart : scan :=
  {| inBlock := false; lang := ""; filename := ""; blockLines := [];
     artifacts := [] |}.

Definition isHint (line : string) : bool :=
  strings.HasPrefix line hintSlash || strings.HasPrefix line hintHash.

(** The filename after an in-block line: a hint line whose [SplitN] has two
    parts replaces it, any other line leaves it. *)
Definition hintFilename (old line : string) : string :=
  if isHint line then
    match strings.SplitN2 line strings.colon with
    | [_; value] => strings.TrimSpace value
    | _ => old
    end
  else old.

(** One iteration of [for _, line := range lines]. *)
Definition scanLine (st : scan) (line : string) : scan :=
  if strings.HasPrefix line fence && negb (inBlock st) then
    {| inBlock := true;
       lang := strings.TrimPrefix line fence;
       filename := "";
       blockLines := [];
       artifacts := artifacts st |}
  else if String.eqb line fence && inBlock st then
    {| inBlock := false;
       lang := lang st;
       filename := filename st;
       blockLines := blockLines st;
       artifacts := artifacts st ++
         [ {| Filename := filename st;
              Content := strings.Join (blockLines st) strings.newline;
              Language := lang st |} ] |}
  else if inBlock st then
    {| inBlock := true;
       lang := lang st;
       filename := hintFilename (filename st) line;
       blockLines := blockLines st ++ [line];
       artifacts := artifacts st |}
  else st.

Definition scanLines (st : scan) (lines : list string) : scan :=
  fold_left scanLine lines st.

(** [func ParseArtifacts(output string) []Artifact] *)
Definition ParseArtifacts (output : string) : list Artifact :=
  artifacts (scanLines scanStart (strings.Split output strings.LF)).

(** ** Package [config]: the service definition (service_definition.go) *)

Module config.

(** [type ServiceDefinition struct] *)
Record ServiceDefinition := mkServiceDefinition {
  Name : string;
  Description : string;
  Language : string;
  Entities : list string;
  Operations : list string;
  Integrations : list string;
  ExtraRequirements : list string
}.

(** [type Config struct] *)
Record Config := mkConfig {
  AnthropicAPIKey : string;
  Model : string;
  MaxTokens : Z
}.

Definition LFLF : string := strings.newline +:+ strings.newline.

(** [fmt.Sprintf("  - %s\n", e)] *)
Definition bullet (e : string) : string := "  - " +:+ e +:+ strings.newline.

(** [for _, e := range items { p += fmt.Sprintf("  - %s\n", e) }] *)
Definition appendBullets (p : string) (items : list string) : string :=
  fold_left (fun p e => p +:+ bullet e) items p.

(** [if len(items) > 0 { p += title; for ... ; p += "\n" }] *)
Definition appendSection (p title : string) (items : list string) : string :=
  if (0 <? length items)%nat
  then appendBullets (p +:+ title) items +:+ strings.newline
  else p.

(** [func (s *ServiceDefinition) Prompt() string] *)
Definition Prompt (s : ServiceDefinition) : string :=
  let p := "Microservice Name: " +:+ Name s +:+ LFLF in
  let p := p +:+ ("Description:" +:+ strings.newline +:+ Description s +:+ LFLF) in
  let p := p +:+ ("Language: " +:+ Language s +:+ LFLF) in
  let p := appendSection p ("Core Domain Entities:" +:+ strings.newline) (Entities s) in
  let p := appendSection p ("Key Business Operations:" +:+ strings.newline) (Operations s) in
  let p := appendSection p ("External Integrations:" +:+ strings.newline) (Integrations s) in
  let p := appendSection p ("Additional Requirements:" +:+ strings.newline) (ExtraRequirements s) in
  p.

(** The rendering as the specification words it: the seven sections in
    their fixed order, a section of an empty sequence being no text. *)
Definition section (title : string) (items : list string) : string :=
  match items with
  | [] => ""
  | _ :: _ =>
      title +:+ strings.newline +:+ String.concat "" (map bullet items)
      +:+ strings.newline
  end.

Definition renderedSections (s : ServiceDefinition) : list string :=
  [ "Microservice Name: " +:+ Name s +:+ LFLF;
    "Description:" +:+ strings.newline +:+ Description s +:+ LFLF;
    "Language: " +:+ Language s +:+ LFLF;
    section "Core Domain Entities:" (Entities s);
    section "Key Business Operations:" (Operations s);
    section "External Integrations:" (Integrations s);
    section "Additional Requirements:" (ExtraRequirements s) ].

Definition PromptBySections (s : ServiceDefinition) : string :=
  String.concat "" (renderedSections s).

End config.

(** ** Errors *)

(** A Go [error] value: one created by a library with its message, or one
    made by [fmt.Errorf] with the verb [%w], which keeps the error it
    wraps. *)
Inductive error :=
| errorNew (msg : string)
| wrapError (msg : string) (err : error).

(** [err.Error()] *)
Definition Error (e : error) : string :=
  match e with
  | errorNew msg => msg
  | wrapError msg _ => msg
  end.

(** [errors.Unwrap(err)] *)
Definition Unwrap (e : error) : option error :=
  match e with
  | errorNew _ => None
  | wrapError _ err => Some err
  end.

(** [fmt.Errorf(before + "%w", err)], [before] being the text already
    formatted in front of the verb. *)
Definition Errorf (before : string) (err : error) : error :=
  wrapError (before +:+ Error err) err.

(** [fmt.Errorf("[%s] failed: %w", name, err)] *)
Definition failed (name : string) (err : error) : error :=
  Errorf ("[" +:+ name +:+ "] failed: ") err.

(** [s] occurs in [t]. *)
Definition substring_of (s t : string) : Prop :=
  exists before after, t = before +:+ s +:+ after.

(** ** The Anthropic client, as [BaseAgent] uses it *)

(** [anthropic.MessageParam]: a role and its text blocks. *)
Record MessageParam := mkMessageParam {
  Role : string;
  Blocks : list string
}.

(** [anthropic.NewUserMessage(anthropic.NewTextBlock(text))] *)
Definition NewUserMessage (text : string) : MessageParam :=
  {| Role := "user"; Blocks := [text] |}.

(** [anthropic.MessageNewParams] *)
Record MessageNewParams := mkMessageNewParams {
  ParamModel : string;
  ParamMaxTokens : Z;
  ParamSystem : list string;
  ParamMessages : list MessageParam
}.

(** One block of [resp.Content]. *)
Record ContentBlock := mkContentBlock {
  Type_ : string;
  Text : string
}.

(** [client.Messages.New]: the content of the response, or an error. *)
Definition Client : Type := MessageNewParams -> list ContentBlock + error.

(** [type BaseAgent struct] *)
Record BaseAgent := mkBaseAgent {
  client : Client;
  cfg : config.Config;
  agentName : string;
  systemPrompt : string
}.

(** [func buildSystemPrompt(role, svcName, language, responsibilities,
    outputFormat string) string] *)
Definition buildSystemPrompt
    (role svcName language responsibilities outputFormat : string) : string :=
  "You are an expert " +:+ role +:+ " specializing in " +:+ svcName
  +:+ " microservices written in " +:+ language +:+ "." +:+ config.LFLF
  +:+ "Service you are building: " +:+ svcName +:+ config.LFLF
  +:+ "Your responsibilities:" +:+ strings.newline
  +:+ responsibilities +:+ config.LFLF
  +:+ outputFormat.

Section Agents.

(** [anthropic.NewClient(option.WithAPIKey(key))]: the service reached with
    an API key. *)
Variable NewClient : string -> Client.

(** [func NewBaseAgent(cfg *config.Config, name, systemPrompt string)] *)
Definition NewBaseAgent (cfg : config.Config) (name systemPrompt : string)
    : BaseAgent :=
  {| client := NewClient (config.AnthropicAPIKey cfg);
     cfg := cfg;
     agentName := name;
     systemPrompt := systemPrompt |}.

(** [func NewBaseAgentForService(cfg, name, svc, responsibilities,
    outputFormat)] *)
Definition NewBaseAgentForService (cfg : config.Config) (name : string)
    (svc : config.ServiceDefinition) (responsibilities outputFormat : string)
    : BaseAgent :=
  let role := name in
  let prompt := buildSystemPrompt role (config.Name svc) (config.Language svc)
                  responsibilities outputFormat in
  NewBaseAgent cfg name prompt.

End Agents.

(** [func (b *BaseAgent) Name() string] *)
Definition Name (b : BaseAgent) : string := agentName b.

(** [func (b *BaseAgent) WithSystemPrompt(prompt string) *BaseAgent] *)
Definition WithSystemPrompt (b : BaseAgent) (prompt : string) : BaseAgent :=
  {| client := client b; cfg := cfg b; agentName := agentName b;
     systemPrompt := prompt |}.

(** [func (b *BaseAgent) Chat(ctx, messages) (string, error)] *)
Definition Chat (b : BaseAgent) (messages : list MessageParam)
    : string * option error :=
  match client b {| ParamModel := config.Model (cfg b);
                    ParamMaxTokens := config.MaxTokens (cfg b);
                    ParamSystem := [systemPrompt b];
                    ParamMessages := messages |} with
  | inr err => ("", Some (Errorf "claude API error: " err))
  | inl content =>
      (fold_left
         (fun sb block =>
            if String.eqb (Type_ block) "text" then sb +:+ Text block else sb)
         content "",
       None)
  end.

(** ** The four agents (api_design_agent.go, backend_db_agent.go,
    messaging_agent.go, testing_security_agent.go) *)

(** The text constants of the agents: the two halves of each system prompt,
    and each task template cut at its one [%s] verb. *)

Definition testingResponsibilities : string :=
"- Write comprehensive unit tests using Go’s testing package and testify

- Design table-driven tests covering edge cases for all domain operations
- Write integration tests using testcontainers-go for real dependencies
- Implement JWT authentication middleware with role-based access control
- Add rate limiting, request ID generation, and audit logging middleware
- Identify and test security vulnerabilities specific to this service’s domain".

Definition testingOutputFormat : string :=
"When generating code, always include:

- Table-driven unit tests with mock repositories (using interfaces)
- Integration tests with testcontainers (PostgreSQL, Kafka as needed)
- Concurrency tests for any operations that modify shared state
- JWT middleware (RS256), RBAC roles appropriate to this service
- Rate limiter middleware (token bucket per IP/API key)
- Audit logging middleware for all mutating operations
- A Makefile with test targets and coverage reporting

Format code blocks as:
`go
// file: <filename>
<code>
`".

Definition testingPromptHead : string :=
"Write tests and implement security for the following microservice:

".

Definition testingPromptTail : string :=
"

Please produce:

1. Unit tests for the service layer — one test file per major operation
- Table-driven tests with success and failure cases
- Mock repositories generated from interfaces
- Concurrency tests for any operations that mutate shared state
1. Integration tests using testcontainers-go
1. Security middleware stack:
- JWT validation (RS256) with roles appropriate to this service
- Role-based access control per endpoint
- Rate limiter (token bucket, configurable per role)
- Request ID + audit logging middleware for all mutations
1. Security-focused test cases:
- Unauthorized access attempts
- Input validation / injection attempts
- Any domain-specific security concerns
1. Makefile with: test, test-integration, coverage, lint targets".

Definition apiDesignResponsibilities : string :=
"- Design clean, RESTful API contracts tailored to this service’s domain

- Define route structures and OpenAPI-style documentation
- Specify request/response schemas with proper validation rules
- Handle domain-specific edge cases and error scenarios
- Follow REST best practices and correct HTTP semantics".

Definition apiDesignOutputFormat : string :=
"When generating code, always include:

- Route definitions using Go's net/http or chi router
- Request/Response structs with JSON tags and validation
- Proper HTTP status codes and error response formats
- Comments explaining design decisions

Format code blocks as:
`go
// file: <filename>
<code>
`".

Definition apiDesignPromptHead : string :=
"Design the REST API for the following microservice:

".

Definition apiDesignPromptTail : string :=
"

Please produce:

1. A complete list of API endpoints (HTTP method, path, description) for all operations listed above
1. Go structs for all request and response payloads with JSON tags
1. Router setup code (chi or net/http)
1. Standardized error response format
1. OpenAPI-style godoc comments for each endpoint
1. Any domain-specific validation rules or constraints".

Definition backendResponsibilities : string :=
"- Implement service layer business logic for all domain operations

- Design the database schema with proper indexing and constraints
- Write repository pattern code for data access using pgx or sqlx
- Handle concurrency: locking strategies, atomic updates, race conditions
- Implement database migrations (up/down)
- Apply domain-appropriate patterns (e.g. Saga, outbox, event sourcing)".

Definition backendOutputFormat : string :=
"When generating code, always include:

- PostgreSQL schema (tables, indexes, constraints, foreign keys)
- Repository interfaces and concrete implementations
- Service structs with dependency injection
- Concurrency-safe operations where relevant
- Up/down migration SQL files

Format Go code blocks as:
```go
// file: <filename>
<code>
```

Format SQL blocks as:
`sql
-- file: <filename>
<sql>
`".

Definition backendPromptHead : string :=
"Implement the backend service layer and database code for the following microservice:

".

Definition backendPromptTail : string :=
"

Please produce:

1. PostgreSQL schema for all entities listed above (tables, indexes, constraints)
1. Repository interfaces and implementations using pgx
1. Service layer structs with all business operations implemented
1. Database migration files (up + down)
1. Any concurrency or consistency mechanisms needed for the operations above
1. Dependency injection wiring (how repos plug into services)".

Definition messagingResponsibilities : string :=
"- Design domain event schemas appropriate for this service

- Implement Kafka producers with the transactional outbox pattern
- Implement Kafka consumers with idempotency and dead letter queue handling
- Define which events this service publishes and which it consumes
- Ensure at-least-once delivery with retry and backoff logic
- Handle graceful shutdown of consumers".

Definition messagingOutputFormat : string :=
"When generating code, always include:

- Domain event structs with versioning, event_id, correlation_id, and timestamp
- Kafka producer with transactional outbox (events written to DB before publishing)
- Kafka consumer group with idempotency tracking
- Dead letter queue handling
- Graceful shutdown

Format code blocks as:
`go
// file: <filename>
<code>
`".

Definition messagingPromptHead : string :=
"Design and implement the messaging/eventing layer for the following microservice:

".

Definition messagingPromptTail : string :=
"

Please produce:

1. Domain event structs this service will PUBLISH (derived from its operations and entities)
1. Events this service will CONSUME from its integrations
1. Kafka producer implementation with:
- Transactional outbox pattern
- Exponential backoff retry
- JSON serialization with schema versioning
1. Kafka consumer with:
- Consumer group setup
- Idempotency key tracking to prevent duplicate processing
- Dead letter queue for poison messages
1. Event handler functions for each consumed event type
1. Topic naming conventions and configuration recommendations
1. Graceful shutdown logic".

(** [type AgentResult struct] *)
Record AgentResult := mkAgentResult {
  AgentName : string;
  Output : string;
  Artifacts : list Artifact;
  Error_ : option error
}.

(** The calls a [Run] makes, in the order it makes them. *)
Inductive call :=
| CallChat (messages : list MessageParam)
| CallParseArtifacts (output : string).

(** What a [Run] returns, [(result, nil)] or [(nil, err)], with the calls
    it made on the way. *)
Record outcome := mkOutcome {
  returned : AgentResult + error;
  calls : list call
}.

Definition result (o : outcome) : option AgentResult :=
  match returned o with inl r => Some r | inr _ => None end.

Definition err (o : outcome) : option error :=
  match returned o with inl _ => None | inr e => Some e end.

(** The default name an agent gives to the artifact [art] found at index
    [i], if it gives one. *)
Definition naming : Type := nat -> Artifact -> option string.

(** [for i, art := range artifacts { if ... { artifacts[i].Filename = ... } }]:
    the slice is updated in place, index by index. *)
Definition nameAt (rule : naming) (cur : list Artifact) (i : nat) : list Artifact :=
  match cur !! i with
  | Some art =>
      match rule i art with
      | Some name => alter (fun a => setFilename a name) i cur
      | None => cur
      end
  | None => cur
  end.

Definition nameLoop (rule : naming) (artifacts : list Artifact) : list Artifact :=
  fold_left (nameAt rule) (seq 0 (length artifacts)) artifacts.

(** What the naming loop makes of the artifact at index [i]. *)
Definition renamed (rule : naming) (i : nat) (art : Artifact) : Artifact :=
  match rule i art with
  | Some name => setFilename art name
  | None => art
  end.

(** [if art.Filename == "" && art.Language == "go"
      { artifacts[i].Filename = fmt.Sprintf(family + "_%d.go", i+1) }] *)
Definition goOnly (family : string) : naming := fun i art =>
  if String.eqb (Filename art) "" && String.eqb (Language art) "go"
  then Some (family +:+ "_" +:+ itoa (i + 1) +:+ ".go")
  else None.

Definition apiNaming : naming := goOnly "api".
Definition messagingNaming : naming := goOnly "messaging".
Definition testingNaming : naming := goOnly "test".

(** [if art.Filename == "" { switch art.Language {
      case "go": ... "service_%d.go"; case "sql": ... "migration_%d.sql" } }] *)
Definition backendNaming : naming := fun i art =>
  if String.eqb (Filename art) "" then
    if String.eqb (Language art) "go"
    then Some ("service_" +:+ itoa (i + 1) +:+ ".go")
    else if String.eqb (Language art) "sql"
    then Some ("migration_" +:+ itoa (i + 1) +:+ ".sql")
    else None
  else None.

(** [if v, ok := agentContext[key]; ok { prompt += label + v }] *)
Definition withContext (prompt : string) (agentContext : gmap string string)
    (key label : string) : string :=
  match agentContext !! key with
  | Some v => prompt +:+ label +:+ v
  | None => prompt
  end.

(** The statements every [Run] ends with, from [messages := ...] on: one
    call of [Chat], the early return on its error, the extraction, the
    default names and the result. *)
Definition chatAndExtract (a : BaseAgent) (prompt : string) (rule : naming)
    : outcome :=
  let messages := [NewUserMessage prompt] in
  match Chat a messages with
  | (_, Some e) =>
      {| returned := inr (failed (Name a) e);
         calls := [CallChat messages] |}
  | (output, None) =>
      let artifacts := ParseArtifacts output in
      let artifacts := nameLoop rule artifacts in
      {| returned := inl {| AgentName := Name a;
                            Output := output;
                            Artifacts := artifacts;
                            Error_ := None |};
         calls := [CallChat messages; CallParseArtifacts output] |}
  end.

(** The task text of [APIDesignAgent.Run], up to [messages := ...]. *)
Definition APIDesignAgent_prompt (svc : config.ServiceDefinition)
    (agentContext : gmap string string) : string :=
  let prompt := apiDesignPromptHead +:+ config.Prompt svc +:+ apiDesignPromptTail in
  let prompt := withContext prompt agentContext "project_context"
      (config.LFLF +:+ "Additional Context:" +:+ strings.newline) in
  prompt.

(** [func (a *APIDesignAgent) Run(ctx, svc, agentContext)] *)
Definition APIDesignAgent_Run (a : BaseAgent) (svc : config.ServiceDefinition)
    (agentContext : gmap string string) : outcome :=
  chatAndExtract a (APIDesignAgent_prompt svc agentContext) apiNaming.

(** The task text of [BackendDBAgent.Run]. *)
Definition BackendDBAgent_prompt (svc : config.ServiceDefinition)
    (agentContext : gmap string string) : string :=
  let prompt := backendPromptHead +:+ config.Prompt svc +:+ backendPromptTail in
  let prompt := withContext prompt agentContext "api_design"
      (config.LFLF +:+ "API Design (implement these contracts):" +:+ strings.newline) in
  prompt.

(** [func (a *BackendDBAgent) Run(ctx, svc, agentContext)] *)
Definition BackendDBAgent_Run (a : BaseAgent) (svc : config.ServiceDefinition)
    (agentContext : gmap string string) : outcome :=
  chatAndExtract a (BackendDBAgent_prompt svc agentContext) backendNaming.

(** The task text of [MessagingAgent.Run]. *)
Definition MessagingAgent_prompt (svc : config.ServiceDefinition)
    (agentContext : gmap string string) : string :=
  let prompt := messagingPromptHead +:+ config.Prompt svc +:+ messagingPromptTail in
  let prompt := withContext prompt agentContext "backend_db"
      (config.LFLF
       +:+ "Database/Service Context (outbox table should align with this schema):"
       +:+ strings.newline) in
  prompt.

(** [func (a *MessagingAgent) Run(ctx, svc, agentContext)] *)
Definition MessagingAgent_Run (a : BaseAgent) (svc : config.ServiceDefinition)
    (agentContext : gmap string string) : outcome :=
  chatAndExtract a (MessagingAgent_prompt svc agentContext) messagingNaming.

(** The task text of [TestingSecurityAgent.Run]. *)
Definition TestingSecurityAgent_prompt (svc : config.ServiceDefinition)
    (agentContext : gmap string string) : string :=
  let prompt := testingPromptHead +:+ config.Prompt svc +:+ testingPromptTail in
  let prompt := withContext prompt agentContext "api_design"
      (config.LFLF +:+ "API Design (write tests and middleware for these endpoints):"
       +:+ strings.newline) in
  let prompt := withContext prompt agentContext "backend_db"
      (config.LFLF +:+ "Service/Repo Layer (mock these interfaces in tests):"
       +:+ strings.newline) in
  prompt.

(** [func (a *TestingSecurityAgent) Run(ctx, svc, agentContext)] *)
Definition TestingSecurityAgent_Run (a : BaseAgent) (svc : config.ServiceDefinition)
    (agentContext : gmap string string) : outcome :=
  chatAndExtract a (TestingSecurityAgent_prompt svc agentContext) testingNaming.

(** ** The agents of the inventory pipeline (inventory-agents/agents)

    The first generation of the backend, messaging and testing agents is
    written for the inventory service alone: its [Run] takes the task as a
    text, and the system prompt of each agent is a constant. *)

Module inventory.

Definition testingSecuritySystemPrompt : string :=
"You are an expert Testing and Security Agent for Go microservices.

Your responsibilities:

- Write comprehensive unit and integration tests using Go’s testing package and testify
- Design table-driven tests for business logic edge cases
- Implement security middleware: JWT validation, RBAC, rate limiting
- Write load/concurrency tests for stock operations
- Set up test containers for PostgreSQL and Kafka integration tests
- Identify and mitigate security vulnerabilities (SQL injection, race conditions, auth bypass)

Testing priorities for inventory:

- Concurrency tests: simultaneous stock reservations
- Boundary tests: stock going to zero, negative stock prevention
- Integration tests: full request lifecycle with real DB
- Event handler tests with mock Kafka

Security priorities:

- JWT middleware with role-based access (admin, warehouse, readonly)
- Rate limiting per API key
- Input sanitization and validation
- Audit logging for all stock mutations

Format code blocks as:
`go
// file: <filename>
<code>
`".

Definition testingPromptHead : string :=
"Write tests and implement security for an inventory microservice.

Task: ".

Definition testingPromptTail : string :=
"

Please produce:

1. Unit tests for service layer (stock reservation, depletion, replenishment)
- Table-driven tests
- Mock repository using interfaces
- Concurrency test: 100 goroutines reserving last item simultaneously
1. Integration tests using testcontainers-go for PostgreSQL
1. Security middleware:
- JWT validation middleware (RS256)
- Role-based access control (admin, warehouse_manager, readonly)
- Rate limiter (token bucket per IP)
- Request ID and audit logging middleware
1. Security-focused test cases:
- Auth bypass attempts
- SQL injection via product IDs
- Race condition in stock updates
1. Makefile targets for running tests with coverage".

Definition backendSystemPrompt : string :=
"You are an expert Backend Development and Database Agent specializing in Go microservices.

Your responsibilities:

- Implement service layer business logic for inventory operations
- Design PostgreSQL schemas with proper indexing and constraints
- Write repository pattern code for data access
- Handle concurrency: optimistic locking, row-level locks, atomic stock updates
- Implement the Saga pattern for distributed transactions with order services
- Use sqlx or pgx for database interactions

Key concerns for inventory:

- Preventing overselling (stock going negative) with proper locking
- Efficient bulk stock updates
- Audit trails for stock changes
- Multi-warehouse support

Format code blocks as:
```go
// file: <filename>
<code>
```

For SQL, use:
`sql
-- file: <filename>
<sql>
`".

Definition backendPromptHead : string :=
"Implement the backend service layer and database code for an inventory microservice.

Task: ".

Definition backendPromptTail : string :=
"

Please produce:

1. PostgreSQL schema (tables, indexes, constraints) for:
- products, inventory_items, warehouses, stock_movements, reservations
1. Repository interfaces and implementations using pgx/sqlx
1. Service layer with business logic for:
- Stock reservation and release
- Atomic stock decrements (prevent negative stock)
- Stock replenishment
- Multi-warehouse aggregation
1. Database migrations (up/down)
1. Concurrency handling with SELECT FOR UPDATE or optimistic locking".

Definition messagingSystemPrompt : string :=
"You are an expert Messaging and Event-Driven Architecture Agent for Go microservices.

Your responsibilities:

- Design event schemas for inventory domain events
- Implement Kafka producers and consumers in Go
- Handle event sourcing and outbox patterns for reliability
- Design dead letter queues and retry logic
- Ensure at-least-once delivery with idempotency keys
- Implement event-driven stock synchronization across services

Key inventory events to handle:

- StockReserved, StockReleased, StockDepleted
- OrderFulfilled, OrderCancelled (consumed from order service)
- LowStockAlert, StockReplenished
- InventoryAdjusted (manual corrections)

Use the confluent-kafka-go or segmentio/kafka-go library.

Format code blocks as:
`go
// file: <filename>
<code>
`".

Definition messagingPromptHead : string :=
"Design and implement the messaging layer for an inventory microservice.

Task: ".

Definition messagingPromptTail : string :=
"

Please produce:

1. Domain event structs with versioning and metadata (event_id, timestamp, correlation_id)
1. Kafka producer with:
- Transactional outbox pattern (events stored in DB before publishing)
- Retry with exponential backoff
- Message serialization (JSON)
1. Kafka consumer with:
- Consumer group management
- Idempotency handling (track processed event IDs)
- Dead letter queue for failed events
1. Event handlers for: order.created, order.cancelled, inventory.adjust
1. Topic configuration recommendations
1. Graceful shutdown handling".

Section Constructors.

Variable NewClient : string -> Client.

(** [func NewBackendDBAgent(cfg *config.Config) *BackendDBAgent] *)
Definition NewBackendDBAgent (cfg : config.Config) : BaseAgent :=
  NewBaseAgent NewClient cfg "Backend & Database Agent" backendSystemPrompt.

(** [func NewMessagingAgent(cfg *config.Config) *MessagingAgent] *)
Definition NewMessagingAgent (cfg : config.Config) : BaseAgent :=
  NewBaseAgent NewClient cfg "Messaging & Events Agent" messagingSystemPrompt.

(** [func NewTestingSecurityAgent(cfg *config.Config) *TestingSecurityAgent] *)
Definition NewTestingSecurityAgent (cfg : config.Config) : BaseAgent :=
  NewBaseAgent NewClient cfg "Testing & Security Agent" testingSecuritySystemPrompt.

End Constructors.

Definition testingNaming : naming := goOnly "testing_security".

(** The task text of [BackendDBAgent.Run]. *)
Definition BackendDBAgent_prompt (task : string)
    (agentContext : gmap string string) : string :=
  let prompt := backendPromptHead +:+ task +:+ backendPromptTail in
  let prompt := withContext prompt agentContext "api_design"
      (config.LFLF
       +:+ "API Design from API Design Agent (implement these contracts):"
       +:+ strings.newline) in
  prompt.

(** [func (a *BackendDBAgent) Run(ctx, task string, agentContext)] *)
Definition BackendDBAgent_Run (a : BaseAgent) (task : string)
    (agentContext : gmap string string) : outcome :=
  chatAndExtract a (BackendDBAgent_prompt task agentContext) backendNaming.

(** The task text of [MessagingAgent.Run]. *)
Definition MessagingAgent_prompt (task : string)
    (agentContext : gmap string string) : string :=
  let prompt := messagingPromptHead +:+ task +:+ messagingPromptTail in
  let prompt := withContext prompt agentContext "backend_db"
      (config.LFLF +:+ "Database/Service Context:" +:+ strings.newline) in
  prompt.

(** [func (a *MessagingAgent) Run(ctx, task string, agentContext)] *)
Definition MessagingAgent_Run (a : BaseAgent) (task : string)
    (agentContext : gmap string string) : outcome :=
  chatAndExtract a (MessagingAgent_prompt task agentContext) messagingNaming.

(** [if v, ok := agentContext[key]; ok
      { contextSections = append(contextSections, label + v) }] *)
Definition withSection (contextSections : list string)
    (agentContext : gmap string string) (key label : string) : list string :=
  match agentContext !! key with
  | Some v => contextSections ++ [label +:+ v]
  | None => contextSections
  end.

(** The task text of [TestingSecurityAgent.Run]: the sections found in the
    context are collected first and appended in a loop. *)
Definition TestingSecurityAgent_prompt (task : string)
    (agentContext : gmap string string) : string :=
  let prompt := testingPromptHead +:+ task +:+ testingPromptTail in
  let contextSections := [] in
  let contextSections := withSection contextSections agentContext "api_design"
      ("API Design:" +:+ strings.newline) in
  let contextSections := withSection contextSections agentContext "backend_db"
      ("Backend/DB Layer:" +:+ strings.newline) in
  fold_left (fun prompt section => prompt +:+ (config.LFLF +:+ section))
    contextSections prompt.

(** [func (a *TestingSecurityAgent) Run(ctx, task string, agentContext)] *)
Definition TestingSecurityAgent_Run (a : BaseAgent) (task : string)
    (agentContext : gmap string string) : outcome :=
  chatAndExtract a (TestingSecurityAgent_prompt task agentContext) testingNaming.

End inventory.

(** The agents of both generations as one enumeration. *)
Inductive stage :=
| APIDesign | BackendDB | Messaging | TestingSecurity
| InventoryBackendDB | InventoryMessaging | InventoryTestingSecurity.

(** What the [Run] of an agent is given besides the context: the service
    definition, or the task text for the agents of the inventory pipeline. *)
Definition request (s : stage) : Type :=
  match s with
  | APIDesign | BackendDB | Messaging | TestingSecurity => config.ServiceDefinition
  | InventoryBackendDB | InventoryMessaging | InventoryTestingSecurity => string
  end.

Definition prompt (s : stage) : request s -> gmap string string -> string :=
  match s with
  | APIDesign => APIDesignAgent_prompt
  | BackendDB => BackendDBAgent_prompt
  | Messaging => MessagingAgent_prompt
  | TestingSecurity => TestingSecurityAgent_prompt
  | InventoryBackendDB => inventory.BackendDBAgent_prompt
  | InventoryMessaging => inventory.MessagingAgent_prompt
  | InventoryTestingSecurity => inventory.TestingSecurityAgent_prompt
  end.

Definition Run (s : stage) : BaseAgent -> request s -> gmap string string -> outcome :=
  match s with
  | APIDesign => APIDesignAgent_Run
  | BackendDB => BackendDBAgent_Run
  | Messaging => MessagingAgent_Run
  | TestingSecurity => TestingSecurityAgent_Run
  | InventoryBackendDB => inventory.BackendDBAgent_Run
  | InventoryMessaging => inventory.MessagingAgent_Run
  | InventoryTestingSecurity => inventory.TestingSecurityAgent_Run
  end.

Definition namingOf (s : stage) : naming :=
  match s with
  | APIDesign => apiNaming
  | BackendDB | InventoryBackendDB => backendNaming
  | Messaging | InventoryMessaging => messagingNaming
  | TestingSecurity => testingNaming
  | InventoryTestingSecurity => inventory.testingNaming
  end.

(** The family of the default names of Go files, per agent. *)
Definition goFamily (s : stage) : string :=
  match s with
  | APIDesign => "api"
  | BackendDB | InventoryBackendDB => "service"
  | Messaging | InventoryMessaging => "messaging"
  | TestingSecurity => "test"
  | InventoryTestingSecurity => "testing_security"
  end.

(** The backend agents, which also name SQL files. *)
Definition sqlStage (s : stage) : Prop :=
  s = BackendDB \/ s = InventoryBackendDB.

(** The language tags an agent has a default name for. *)
Definition mapped (s : stage) (language : string) : Prop :=
  language = "go" \/ (sqlStage s /\ language = "sql").

(** [type Agent interface { Name(); Description(); Run(...) }] *)
Record Agent := mkAgent {
  Agent_Name : string;
  Agent_Description : string;
  Agent_Run : config.ServiceDefinition -> gmap string string -> outcome
}.

Section Constructors.

Variable NewClient : string -> Client.

(** [func NewAPIDesignAgent(cfg, svc) *APIDesignAgent] *)
Definition NewAPIDesignAgent (cfg : config.Config)
    (svc : config.ServiceDefinition) : Agent :=
  let base := NewBaseAgentForService NewClient cfg "API Design Agent" svc
                apiDesignResponsibilities apiDesignOutputFormat in
  {| Agent_Name := Name base;
     Agent_Description :=
       "Designs RESTful API contracts, route definitions, and request/response schemas";
     Agent_Run := APIDesignAgent_Run base |}.

(** [func NewBackendDBAgent(cfg, svc) *BackendDBAgent] *)
Definition NewBackendDBAgent (cfg : config.Config)
    (svc : config.ServiceDefinition) : Agent :=
  let base := NewBaseAgentForService NewClient cfg "Backend & Database Agent" svc
                backendResponsibilities backendOutputFormat in
  {| Agent_Name := Name base;
     Agent_Description :=
       "Implements business logic, service layer, and database schema/repositories";
     Agent_Run := BackendDBAgent_Run base |}.

(** [func NewMessagingAgent(cfg, svc) *MessagingAgent] *)
Definition NewMessagingAgent (cfg : config.Config)
    (svc : config.ServiceDefinition) : Agent :=
  let base := NewBaseAgentForService NewClient cfg "Messaging & Events Agent" svc
                messagingResponsibilities messagingOutputFormat in
  {| Agent_Name := Name base;
     Agent_Description :=
       "Designs and implements Kafka-based domain events, producers, consumers, and async communication";
     Agent_Run := MessagingAgent_Run base |}.

(** [func NewTestingSecurityAgent(cfg, svc) *TestingSecurityAgent] *)
Definition NewTestingSecurityAgent (cfg : config.Config)
    (svc : config.ServiceDefinition) : Agent :=
  let base := NewBaseAgentForService NewClient cfg "Testing & Security Agent" svc
                testingResponsibilities testingOutputFormat in
  {| Agent_Name := Name base;
     Agent_Description :=
       "Writes unit/integration tests and implements JWT auth, RBAC, rate limiting, and security middleware";
     Agent_Run := TestingSecurityAgent_Run base |}.

End Constructors.

(** ** The default names as the specification words them *)

Module Spec.

(** The extension of a language tag: go, sql, yaml or yml, json, and the
    generic text extension for any other tag. *)
Definition extension (language : string) : string :=
  if String.eqb language "go" then ".go"
  else if String.eqb language "sql" then ".sql"
  else if String.eqb language "yaml" || String.eqb language "yml" then ".yaml"
  else if String.eqb language "json" then ".json"
  else ".txt".

(** Every artifact with an empty filename is named [family_n.ext], [n]
    counting from 1 among the artifacts that lack a hint. *)
Fixpoint defaultNamesFrom (family : string) (n : nat) (arts : list Artifact)
    : list Artifact :=
  match arts with
  | [] => []
  | art :: rest =>
      if String.eqb (Filename art) ""
      then setFilename art
             (family +:+ "_" +:+ itoa n +:+ extension (Language art))
           :: defaultNamesFrom family (S n) rest
      else art :: defaultNamesFrom family n rest
  end.

Definition defaultNames (family : string) (arts : list Artifact) : list Artifact :=
  defaultNamesFrom family 1 arts.

End Spec.

(** ** The orchestrator *)

Module orchestrator.

(** Modelled from the spec: orchestrator/pipeline.go, with [Pipeline],
    [NewPipeline] and [Pipeline.Run], is not among the sources; only its
    caller main.go and the project notes are.  The definitions follow
    section 4.1 of the specification, and the notes for the four context
    keys and the seed entry.  The wall-clock stamps of the result are left
    out, and the text put in front of a stage's error is the stage's name
    and a colon, the specification fixing only that the name is there. *)
Definition contextCap : nat := 3000.

(** Modelled from the spec: orchestrator/pipeline.go is not among the
    sources.  Truncation takes the first [contextCap] characters. *)
Definition truncate (rawOutput : string) : string :=
  if (contextCap <? String.length rawOutput)%nat
  then strings.take contextCap rawOutput
  else rawOutput.

(** Modelled from the spec: a configured stage is a constructor of the
    agent, bound to the descriptor at each run, and the context key the
    agent's output is stored under. *)
Record Stage := mkStage {
  factory : config.Config -> config.ServiceDefinition -> Agent;
  contextKey : string
}.

(** Modelled from the spec: the configuration and the ordered list of
    stages of a pipeline. *)
Record Pipeline := mkPipeline {
  pipelineCfg : config.Config;
  stages : list Stage
}.

(** Modelled from the spec: [type PipelineResult struct], without its three
    time fields. *)
Record PipelineResult := mkPipelineResult {
  Service : config.ServiceDefinition;
  Results : list AgentResult
}.

(** Modelled from the spec: the state of one run, which is the context, the
    results so far, and the names of the stages whose [Run] was called, in
    order. *)
Record run := mkRun {
  agentContext : gmap string string;
  results : list AgentResult;
  started : list string
}.

(** Modelled from the spec: the error of a stage, wrapped with its name. *)
Definition stageFailure (name : string) (e : error) : error :=
  Errorf (name +:+ ": ") e.

(** Modelled from the spec: steps 1 to 5 of section 4.1 for one stage. *)
Definition runStage (cfg : config.Config) (svc : config.ServiceDefinition)
    (r : run) (s : Stage) : run * option error :=
  let agent := factory s cfg svc in
  let o := Agent_Run agent svc (agentContext r) in
  let started' := (started r ++ [Agent_Name agent])%list in
  match returned o with
  | inr e =>
      ({| agentContext := agentContext r;
          results := results r;
          started := started' |},
       Some (stageFailure (Agent_Name agent) e))
  | inl res =>
      ({| agentContext := <[contextKey s := truncate (Output res)]> (agentContext r);
          results := results r ++ [res];
          started := started' |},
       None)
  end.

(** Modelled from the spec: the stages in their configured order, stopping
    at the first error. *)
Fixpoint runStages (cfg : config.Config) (svc : config.ServiceDefinition)
    (r : run) (ss : list Stage) : run * option error :=
  match ss with
  | [] => (r, None)
  | s :: rest =>
      match runStage cfg svc r s with
      | (r', Some e) => (r', Some e)
      | (r', None) => runStages cfg svc r' rest
      end
  end.

(** Modelled from the spec: the context a run starts from, one seed entry
    holding the descriptor's rendered prompt. *)
Definition seed (svc : config.ServiceDefinition) : run :=
  {| agentContext := {[ "project_context" := config.Prompt svc ]};
     results := [];
     started := [] |}.

(** Modelled from the spec: what [Pipeline.Run] returns, [(result, nil)]
    or [(nil, err)], with the names of the stages it ran. *)
Record pipelineOutcome := mkPipelineOutcome {
  pipelineReturned : PipelineResult + error;
  ran : list string
}.

Definition pipelineResult (o : pipelineOutcome) : option PipelineResult :=
  match pipelineReturned o with inl r => Some r | inr _ => None end.

Definition pipelineErr (o : pipelineOutcome) : option error :=
  match pipelineReturned o with inl _ => None | inr e => Some e end.

(** Modelled from the spec: [func (p *Pipeline) Run(ctx, svc)], which
    returns a [*PipelineResult] and an [error]. *)
Definition Pipeline_Run (p : Pipeline) (svc : config.ServiceDefinition)
    : pipelineOutcome :=
  match runStages (pipelineCfg p) svc (seed svc) (stages p) with
  | (r, Some e) => {| pipelineReturned := inr e; ran := started r |}
  | (r, None) =>
      {| pipelineReturned := inl {| Service := svc; Results := results r |};
         ran := started r |}
  end.

(** Modelled from the spec: [func NewPipeline(cfg) *Pipeline], the four
    agents and their context keys in pipeline order. *)
Definition NewPipeline (NewClient : string -> Client) (cfg : config.Config)
    : Pipeline :=
  {| pipelineCfg := cfg;
     stages :=
       [ {| factory := NewAPIDesignAgent NewClient; contextKey := "api_design" |};
         {| factory := NewBackendDBAgent NewClient; contextKey := "backend_db" |};
         {| factory := NewMessagingAgent NewClient; contextKey := "messaging" |};
         {| factory := NewTestingSecurityAgent NewClient;
            contextKey := "testing_security" |} ] |}.

End orchestrator.

(** ** Values the statements below are tried on *)

Definition ordersService : config.ServiceDefinition :=
  {| config.Name := "orders";
     config.Description := "Manages the order lifecycle for an e-commerce platform";
     config.Language := "Go";
     config.Entities := ["Order"; "OrderItem"; "Address"];
     config.Operations := ["Place order"; "Cancel order"; "Track shipment"];
     config.Integrations := ["Inventory Service (Kafka)"; "PostgreSQL"];
     config.ExtraRequirements := [] |}.

Definition exampleConfig : config.Config :=
  {| config.AnthropicAPIKey := "key";
     config.Model := "claude-opus-4-5";
     config.MaxTokens := 8192 |}.

(** A service that answers every request with the one text block [text]. *)
Definition answering (text : string) : string -> Client :=
  fun _ _ => inl [ {| Type_ := "text"; Text := text |} ].

(** A service that fails every request. *)
Definition refusing : string -> Client :=
  fun _ _ => inr (errorNew "connection refused").

(** An answer with a hinted Go block, a Go block without a hint and a
    YAML block without a hint. *)
Definition threeBlocks : string :=
"```go
// file: main.go
package main
```
```go
package api
```
```yaml
a: 1
```".

(** The API design agent in front of a service that answers [threeBlocks],
    and what its [Run] returns for [ordersService] on an empty context. *)
Definition exampleAgent : BaseAgent :=
  NewBaseAgentForService (answering threeBlocks) exampleConfig
    "API Design Agent" ordersService
    apiDesignResponsibilities apiDesignOutputFormat.

Definition exampleResult : AgentResult :=
  {| AgentName := "API Design Agent";
     Output := threeBlocks;
     Artifacts :=
       [ {| Filename := "main.go";
            Content := "// file: main.go
package main";
            Language := "go" |};
         {| Filename := "api_2.go"; Content := "package api"; Language := "go" |};
         {| Filename := ""; Content := "a: 1"; Language := "yaml" |} ];
     Error_ := None |}.

(** The same agent in front of a service that fails. *)
Definition failingAgent : BaseAgent :=
  NewBaseAgentForService refusing exampleConfig
    "API Design Agent" ordersService
    apiDesignResponsibilities apiDesignOutputFormat.

(** An answer of 3010 characters, longer than the cap of the context. *)
Definition longAnswer : string :=
  String.concat "" (repeat "0123456789" 301).

Definition longStage : orchestrator.Stage :=
  {| orchestrator.factory := NewAPIDesignAgent (answering longAnswer);
     orchestrator.contextKey := "api_design" |}.

Definition longResult : AgentResult :=
  {| AgentName := "API Design Agent";
     Output := longAnswer;
     Artifacts := [];
     Error_ := None |}.

(** The four stages, the service failing at the second one. *)
Definition brokenPipeline : orchestrator.Pipeline :=
  {| orchestrator.pipelineCfg := exampleConfig;
     orchestrator.stages :=
       [ {| orchestrator.factory := NewAPIDesignAgent (answering threeBlocks);
            orchestrator.contextKey := "api_design" |};
         {| orchestrator.factory := NewBackendDBAgent refusing;
            orchestrator.contextKey := "backend_db" |};
         {| orchestrator.factory := NewMessagingAgent (answering threeBlocks);
            orchestrator.contextKey := "messaging" |};
         {| orchestrator.factory := NewTestingSecurityAgent (answering threeBlocks);
            orchestrator.contextKey := "testing_security" |} ] |}.

(** ** Replies made of prose and closed blocks *)

(** A fenced block as the agents ask for it in their system prompts: the
    fence followed by the language tag, the lines of the body, the fence. *)
Record block := mkBlock {
  blockLang : string;
  blockBody : list string
}.

Definition blockText (b : block) : list string :=
  (fence +:+ blockLang b) :: blockBody b ++ [fence].

(** A reply: each block with the lines of prose in front of it, and the
    prose after the last block. *)
Fixpoint reply (segments : list (list string * block)) (closing : list string)
    : list string :=
  match segments with
  | [] => closing
  | (prose, b) :: rest => prose ++ blockText b ++ reply rest closing
  end.

(** The lines are free of line feeds. *)
Definition lineFree (lines : list string) : Prop :=
  Forall (fun line => ~ occurs strings.LF line) lines.

(** The lines can be prose between blocks: none starts with the fence. *)
Definition proseLines (lines : list string) : Prop :=
  Forall (fun line => strings.HasPrefix line fence = false) lines.

(** The block is closed by its last line only: no line of the body is the
    bare fence. *)
Definition closedBlock (b : block) : Prop :=
  ~ occurs strings.LF (blockLang b) /\
  lineFree (blockBody b) /\
  Forall (fun line => line <> fence) (blockBody b).

(** The number of lines that are the bare fence, and of lines that start
    with the fence. *)
Definition bareFences (lines : list string) : nat :=
  length (List.filter (fun line => String.eqb line fence) lines).

Definition fencedLines (lines : list string) : nat :=
  length (List.filter (fun line => strings.HasPrefix line fence) lines).

(** An artifact written back as a fenced block. *)
Definition rendered (art : Artifact) : string :=
  fence +:+ Language art +:+ strings.newline
  +:+ Content art +:+ strings.newline +:+ fence.

(** Two states that are both inside a block with the same language,
    filename and lines, or both outside of any block, the artifacts of the
    first being those of the second after [front]. *)
Definition shifted (front : list Artifact) (st1 st2 : scan) : Prop :=
  inBlock st1 = inBlock st2 /\
  (inBlock st1 = true ->
     lang st1 = lang st2 /\ filename st1 = filename st2 /\
     blockLines st1 = blockLines st2) /\
  artifacts st1 = front ++ artifacts st2.

(** The artifact a block is extracted as. *)
Definition blockArtifact (b : block) : Artifact :=
  {| Filename := fold_left hintFilename (blockBody b) "";
     Content := strings.Join (blockBody b) strings.newline;
     Language := blockLang b |}.

(** The artifact [art] is what a block of language [Language art] with the
    lines [body] is extracted as. *)
Definition madeOf (art : Artifact) (body : list string) : Prop :=
  lineFree body /\
  Forall (fun line => line <> fence) body /\
  ~ occurs strings.LF (Language art) /\
  Content art = strings.Join body strings.newline /\
  Filename art = fold_left hintFilename body "".

(** What holds of the state of the extractor after any number of lines. *)
Definition kept (st : scan) : Prop :=
  (inBlock st = true ->
     ~ occurs strings.LF (lang st) /\
     lineFree (blockLines st) /\
     Forall (fun line => line <> fence) (blockLines st) /\
     filename st = fold_left hintFilename (blockLines st) "") /\
  Forall (fun art => exists body, madeOf art body) (artifacts st).

(** A reply whose prose does not touch the fences and whose blocks are
    closed by their last line. *)
Definition wellFormed (segments : list (list string * block))
    (closing : list string) : Prop :=
  Forall (fun sb => lineFree (fst sb) /\ proseLines (fst sb) /\ closedBlock (snd sb))
    segments /\
  lineFree closing /\ proseLines closing.

(** An SQL block as the backend agents ask for it: the hint line with two
    dashes, then the statements. *)
Definition sqlBlock (name : string) (statements : list string) : block :=
  {| blockLang := "sql"; blockBody := ("-- file: " +:+ name) :: statements |}.

(** A reply of the backend agent holding one SQL block in the format its
    system prompt asks for, and the agent that receives it. *)
Definition sqlReply : string :=
"```sql
-- file: 001_init.sql
create table products (id int);
```".

Definition sqlAgent : BaseAgent :=
  NewBaseAgentForService (answering sqlReply) exampleConfig
    "Backend & Database Agent" ordersService
    backendResponsibilities backendOutputFormat.

Definition sqlResult : AgentResult :=
  {| AgentName := "Backend & Database Agent";
     Output := sqlReply;
     Artifacts :=
       [ {| Filename := "migration_1.sql";
            Content := "-- file: 001_init.sql
create table products (id int);";
            Language := "sql" |} ];
     Error_ := None |}.

(** A reply of the backend agent with a Go block and an SQL block, neither
    with a hint, and what the run returns for it. *)
Definition twoBlocks : string :=
"```go
package store
```
```sql
create table products (id int);
```".

Definition twoBlocksAgent : BaseAgent :=
  NewBaseAgentForService (answering twoBlocks) exampleConfig
    "Backend & Database Agent" ordersService
    backendResponsibilities backendOutputFormat.

Definition twoBlocksResult : AgentResult :=
  {| AgentName := "Backend & Database Agent";
     Output := twoBlocks;
     Artifacts :=
       [ {| Filename := "service_1.go"; Content := "package store"; Language := "go" |};
         {| Filename := "migration_2.sql";
            Content := "create table products (id int);";
            Language := "sql" |} ];
     Error_ := None |}.

(** ** What an agent sends and reads *)

(** The request [Chat] makes for [messages]: the model and the token limit
    of the configuration, the system prompt as the one system block. *)
Definition chatParams (b : BaseAgent) (messages : list MessageParam)
    : MessageNewParams :=
  {| ParamModel := config.Model (cfg b);
     ParamMaxTokens := config.MaxTokens (cfg b);
     ParamSystem := [systemPrompt b];
     ParamMessages := messages |}.

(** The text of the blocks of type ["text"], in order. *)
Definition textOf (content : list ContentBlock) : string :=
  String.concat ""
    (map Text (List.filter (fun block => String.eqb (Type_ block) "text") content)).

(** The context keys the [Run] of an agent looks up. *)
Definition reads (s : stage) : list string :=
  match s with
  | APIDesign => ["project_context"]
  | BackendDB | InventoryBackendDB => ["api_design"]
  | Messaging | InventoryMessaging => ["backend_db"]
  | TestingSecurity | InventoryTestingSecurity => ["api_design"; "backend_db"]
  end.

(** A service whose reply holds no text block. *)
Definition toolOnly : string -> Client :=
  fun _ _ => inl [ {| Type_ := "tool_use"; Text := "ignored" |} ].

Definition toolOnlyAgent : BaseAgent :=
  NewBaseAgentForService toolOnly exampleConfig
    "Messaging & Events Agent" ordersService
    messagingResponsibilities messagingOutputFormat.

(** A reply with two text blocks around a block of another type, and an
    agent that receives it. *)
Definition mixedContent : list ContentBlock :=
  [ {| Type_ := "text"; Text := "a" |};
    {| Type_ := "thinking"; Text := "x" |};
    {| Type_ := "text"; Text := "b" |} ].

Definition mixedAgent : BaseAgent :=
  {| client := fun _ => inl mixedContent;
     cfg := exampleConfig;
     agentName := "agent";
     systemPrompt := "system" |}.

(** ** Package [config]: the runtime configuration (config.go) *)

Module os.

(** [os.Getenv(key)] on the environment [env]: the value of the variable,
    or the empty string when it is not set. *)
Definition Getenv (env : gmap string string) (key : string) : string :=
  default "" (env !! key).

End os.

Module strconv.

(** The bounds of [int], which has 64 bits. *)
Definition maxInt : Z := 2 ^ 63 - 1.
Definition minInt : Z := - 2 ^ 63.

(** [ch -= '0'; if ch > 9 { syntax error }]: the value of a decimal digit. *)
Definition digitValue (ch : ascii) : option Z :=
  let n := nat_of_ascii ch in
  if (48 <=? n)%nat && (n <=? 57)%nat then Some (Z.of_nat (n - 48)) else None.

(** [for _, ch := range []byte(s) { ...; n = n*10 + int(ch) }] *)
Fixpoint digits (s : string) (n : Z) : option Z :=
  match s with
  | EmptyString => Some n
  | String ch rest =>
      match digitValue ch with
      | Some d => digits rest (n * 10 + d)
      | None => None
      end
  end.

(** [strconv.Atoi(s)]: [Some n] when the error is nil.  The text is an
    optional sign and at least one decimal digit; the short texts are read
    by the loop above and the long ones by [ParseInt(s, 10, 0)], which
    accepts the same texts and refuses the values outside of [int]. *)
Definition Atoi (s : string) : option Z :=
  match s with
  | EmptyString => None
  | String c rest =>
      let body := if Ascii.eqb c "-" || Ascii.eqb c "+" then rest else s in
      match body with
      | EmptyString => None
      | String _ _ =>
          match digits body 0 with
          | None => None
          | Some n =>
              let n := if Ascii.eqb c "-" then (- n)%Z else n in
              if (minInt <=? n)%Z && (n <=? maxInt)%Z then Some n else None
          end
      end
  end.

End strconv.

Definition defaultModel : string := "claude-opus-4-5".
Definition defaultMaxTokens : Z := 8192.

(** [func Load() *Config], on the environment of the process. *)
Definition Load (env : gmap string string) : config.Config :=
  let model := os.Getenv env "CLAUDE_MODEL" in
  let model := if String.eqb model "" then defaultModel else model in
  let maxTokens := defaultMaxTokens in
  let maxTokens :=
    let v := os.Getenv env "CLAUDE_MAX_TOKENS" in
    if negb (String.eqb v "") then
      match strconv.Atoi v with
      | Some n => if (0 <? n)%Z then n else maxTokens
      | None => maxTokens
      end
    else maxTokens in
  {| config.AnthropicAPIKey := os.Getenv env "ANTHROPIC_API_KEY";
     config.Model := model;
     config.MaxTokens := maxTokens |}.

(** * Properties *)

(** ** Strings *)

Lemma append_cons (x : ascii) (a b : string) :
  String x a +:+ b = String x (a +:+ b).
Proof. reflexivity. Qed.

Lemma append_nil (b : string) : "" +:+ b = b.
Proof. reflexivity. Qed.

(** Unfold the appends whose left operand starts with a known byte. *)
Ltac sapp := rewrite ?append_cons, ?append_nil in *.

Lemma append_assoc (a b c : string) : (a +:+ b) +:+ c = a +:+ (b +:+ c).
Proof. induction a as [|x a IH]; sapp; [reflexivity | now rewrite IH]. Qed.

Lemma append_empty_r (a : string) : a +:+ "" = a.
Proof. induction a as [|x a IH]; sapp; [reflexivity | now rewrite IH]. Qed.

Lemma length_append (a b : string) :
  String.length (a +:+ b) = String.length a + String.length b.
Proof. induction a as [|x a IH]; sapp; simpl; [reflexivity | now rewrite IH]. Qed.

Lemma HasPrefix_spec (s p : string) :
  strings.HasPrefix s p = true <-> exists rest, s = p +:+ rest.
Proof.
  unfold strings.HasPrefix. revert s.
  induction p as [|a p IH]; intros s.
  - destruct s; simpl; split; eauto.
  - destruct s as [|b s]; simpl.
    + split; [discriminate | intros [rest H]; sapp; discriminate].
    + destruct (ascii_dec a b) as [->|Hne].
      * rewrite IH. split; intros [rest H]; exists rest; sapp; congruence.
      * split; [discriminate | intros [rest H]; sapp; congruence].
Qed.

Lemma HasPrefix_app (p rest : string) : strings.HasPrefix (p +:+ rest) p = true.
Proof. apply HasPrefix_spec. eauto. Qed.

Lemma drop_append (p rest : string) : strings.drop (String.length p) (p +:+ rest) = rest.
Proof. induction p as [|a p IH]; sapp; simpl; [now destruct rest | exact IH]. Qed.

Lemma TrimPrefix_app (p rest : string) : strings.TrimPrefix (p +:+ rest) p = rest.
Proof. unfold strings.TrimPrefix. now rewrite HasPrefix_app, drop_append. Qed.

Lemma take_full (n : nat) (s : string) :
  String.length s <= n -> strings.take n s = s.
Proof.
  revert n. induction s as [|c s IH]; intros [|n] H; simpl in *;
    try reflexivity; try lia.
  f_equal. apply IH. lia.
Qed.

Lemma length_take (n : nat) (s : string) :
  n <= String.length s -> String.length (strings.take n s) = n.
Proof.
  revert s. induction n as [|n IH]; intros [|c s] H; simpl in *;
    try reflexivity; try lia.
  f_equal. apply IH. lia.
Qed.

Lemma take_drop (n : nat) (s : string) :
  strings.take n s +:+ strings.drop n s = s.
Proof.
  revert s. induction n as [|n IH]; intros [|c s]; simpl; sapp; try reflexivity.
  now rewrite IH.
Qed.

Lemma cut_spec (before after : string) (sep : ascii) :
  ~ occurs sep before ->
  strings.cut (before +:+ String sep after) sep = Some (before, after).
Proof.
  induction before as [|x before IH]; sapp; simpl; intros H.
  - now rewrite Ascii.eqb_refl.
  - destruct (Ascii.eqb_spec x sep) as [->|Hne]; [tauto |].
    rewrite IH by tauto. reflexivity.
Qed.

Lemma cut_inv (s before after : string) (sep : ascii) :
  strings.cut s sep = Some (before, after) ->
  s = before +:+ String sep after /\ ~ occurs sep before.
Proof.
  revert before. induction s as [|x s IH]; simpl; intros before H; [discriminate |].
  destruct (Ascii.eqb_spec x sep) as [->|Hne].
  - injection H as <- <-. simpl. tauto.
  - destruct (strings.cut s sep) as [[b a]|] eqn:E; [|discriminate].
    injection H as <- <-. destruct (IH b eq_refl) as [-> Hb].
    sapp. simpl. split; [reflexivity | tauto].
Qed.

Lemma Split_nonempty (s : string) (sep : ascii) : strings.Split s sep <> [].
Proof.
  destruct s as [|c s]; simpl; [discriminate |].
  destruct (Ascii.eqb c sep); [discriminate |].
  destruct (strings.Split s sep); discriminate.
Qed.

Lemma Split_no_sep (s : string) (sep : ascii) :
  Forall (fun line => ~ occurs sep line) (strings.Split s sep).
Proof.
  induction s as [|c s IH]; simpl.
  - repeat constructor. simpl. tauto.
  - destruct (Ascii.eqb_spec c sep) as [->|Hne].
    + constructor; [simpl; tauto | exact IH].
    + destruct (strings.Split s sep) as [|h t].
      * repeat constructor. simpl. intros [?|[]]. contradiction.
      * inversion IH; subst. constructor; [|assumption].
        simpl. intros [?|?]; contradiction.
Qed.

Lemma Split_line (line rest : string) (sep : ascii) :
  ~ occurs sep line ->
  strings.Split (line +:+ String sep rest) sep = line :: strings.Split rest sep.
Proof.
  induction line as [|c line IH]; sapp; simpl; intros H.
  - now rewrite Ascii.eqb_refl.
  - destruct (Ascii.eqb_spec c sep) as [->|Hc]; [tauto |].
    rewrite IH by tauto. reflexivity.
Qed.

Lemma Split_last (line : string) (sep : ascii) :
  ~ occurs sep line -> strings.Split line sep = [line].
Proof.
  induction line as [|c line IH]; simpl; intros H; [reflexivity |].
  destruct (Ascii.eqb_spec c sep) as [->|Hc]; [tauto |].
  rewrite IH by tauto. reflexivity.
Qed.

Lemma Join_cons (l l2 : string) (rest : list string) (sep : string) :
  strings.Join (l :: l2 :: rest) sep = l +:+ sep +:+ strings.Join (l2 :: rest) sep.
Proof. reflexivity. Qed.

Lemma Split_Join (lines : list string) :
  lines <> [] ->
  Forall (fun line => ~ occurs strings.LF line) lines ->
  strings.Split (strings.Join lines strings.newline) strings.LF = lines.
Proof.
  induction lines as [|l rest IH]; intros Hne Hall; [congruence |].
  inversion Hall as [|? ? Hl Hrest]; subst.
  destruct rest as [|l2 rest].
  - apply Split_last, Hl.
  - rewrite Join_cons. unfold strings.newline at 1. sapp.
    rewrite Split_line by exact Hl.
    f_equal. apply IH; [discriminate | exact Hrest].
Qed.

(** ** The extractor *)

Lemma isHint_inv (line : string) :
  isHint line = true ->
  exists rest, line = hintSlash +:+ rest \/ line = hintHash +:+ rest.
Proof.
  unfold isHint. intros H. apply orb_true_iff in H.
  destruct H as [H|H]; apply HasPrefix_spec in H; destruct H as [rest H]; eauto.
Qed.

Lemma isHint_not_fenced (line : string) :
  isHint line = true -> strings.HasPrefix line fence = false.
Proof. intros H. destruct (isHint_inv _ H) as [rest [-> | ->]]; reflexivity. Qed.

Lemma fenced_not_hint (line : string) :
  strings.HasPrefix line fence = true -> isHint line = false.
Proof.
  intros H. destruct (isHint line) eqn:E; [|reflexivity].
  apply isHint_not_fenced in E. congruence.
Qed.

Lemma fence_fenced : strings.HasPrefix fence fence = true.
Proof. reflexivity. Qed.

(** A hint line always has its colon: [SplitN] gives two parts. *)
Lemma hint_has_colon (line : string) :
  isHint line = true ->
  exists before value,
    line = before +:+ String strings.colon value /\ ~ occurs strings.colon before.
Proof.
  intros H. destruct (isHint_inv _ H) as [rest [-> | ->]].
  - exists "// file", rest. split; [reflexivity |].
    simpl. intros H'. repeat (destruct H' as [H'|H']; [discriminate |]). exact H'.
  - exists "# file", rest. split; [reflexivity |].
    simpl. intros H'. repeat (destruct H' as [H'|H']; [discriminate |]). exact H'.
Qed.

Lemma hintFilename_hint (old line before value : string) :
  isHint line = true ->
  line = before +:+ String strings.colon value ->
  ~ occurs strings.colon before ->
  hintFilename old line = strings.TrimSpace value.
Proof.
  intros Hh -> Hb. unfold hintFilename, strings.SplitN2.
  rewrite Hh, cut_spec by exact Hb. reflexivity.
Qed.

Lemma hintFilename_other (old line : string) :
  isHint line = false -> hintFilename old line = old.
Proof. intros H. unfold hintFilename. now rewrite H. Qed.

Lemma scanLine_open (st : scan) (line : string) :
  inBlock st = false ->
  strings.HasPrefix line fence = true ->
  scanLine st line =
    {| inBlock := true; lang := strings.TrimPrefix line fence; filename := "";
       blockLines := []; artifacts := artifacts st |}.
Proof. intros Hin Hp. unfold scanLine. now rewrite Hp, Hin. Qed.

Lemma scanLine_close (st : scan) :
  inBlock st = true ->
  scanLine st fence =
    {| inBlock := false; lang := lang st; filename := filename st;
       blockLines := blockLines st;
       artifacts := artifacts st ++
         [ {| Filename := filename st;
              Content := strings.Join (blockLines st) strings.newline;
              Language := lang st |} ] |}.
Proof. intros Hin. unfold scanLine. rewrite Hin. reflexivity. Qed.

Lemma scanLine_inside (st : scan) (line : string) :
  inBlock st = true ->
  line <> fence ->
  scanLine st line =
    {| inBlock := true; lang := lang st;
       filename := hintFilename (filename st) line;
       blockLines := blockLines st ++ [line];
       artifacts := artifacts st |}.
Proof.
  intros Hin Hne. unfold scanLine. rewrite Hin.
  apply String.eqb_neq in Hne. rewrite Hne.
  now rewrite andb_false_r.
Qed.

Lemma scanLine_outside (st : scan) (line : string) :
  inBlock st = false ->
  strings.HasPrefix line fence = false ->
  scanLine st line = st.
Proof.
  intros Hin Hp. unfold scanLine. rewrite Hin, Hp. now rewrite andb_false_r.
Qed.

Lemma scanLines_app (st : scan) (l1 l2 : list string) :
  scanLines st (l1 ++ l2) = scanLines (scanLines st l1) l2.
Proof. apply fold_left_app. Qed.

(** Inside a block, lines other than the bare fence only add to the
    content and may replace the filename. *)
Lemma scanLines_inside (body : list string) (st : scan) :
  inBlock st = true ->
  Forall (fun line => line <> fence) body ->
  scanLines st body =
    {| inBlock := true; lang := lang st;
       filename := fold_left hintFilename body (filename st);
       blockLines := blockLines st ++ body;
       artifacts := artifacts st |}.
Proof.
  revert st. induction body as [|line body IH]; intros st Hin Hall.
  - simpl. rewrite app_nil_r. destruct st; simpl in *; now subst.
  - inversion Hall as [|? ? Hline Hbody]; subst.
    change (scanLines st (line :: body)) with (scanLines (scanLine st line) body).
    rewrite scanLine_inside by assumption.
    rewrite IH by (simpl; auto). simpl.
    now rewrite <- app_assoc.
Qed.

Lemma fold_hintFilename_other (lines : list string) (old : string) :
  Forall (fun line => isHint line = false) lines ->
  fold_left hintFilename lines old = old.
Proof.
  revert old. induction lines as [|l lines IH]; intros old H; [reflexivity |].
  inversion H; subst. simpl. rewrite hintFilename_other by assumption. auto.
Qed.

(** C2: the extractor on the block of the round-trip example returns the
    one artifact ["x.go"], of language ["go"], whose content is the hint
    line and the code line joined by a line feed, the fences left out. *)
Theorem extractor_round_trip :
  ParseArtifacts "```go
// file: x.go
func f(){}
```" =
  [ {| Filename := "x.go";
       Content := "// file: x.go
func f(){}";
       Language := "go" |} ].
Proof. reflexivity. Qed.

(** C8: inside a block, a line that begins with the fence delimiter closes
    the block when it is the bare delimiter, emitting the artifact; any
    other such line is appended to the content of the block, which stays
    open with its language tag and filename: no nested block is opened. *)
Theorem fence_line_inside_block (st : scan) (line : string) :
  inBlock st = true ->
  strings.HasPrefix line fence = true ->
  (line = fence ->
     scanLine st line =
       {| inBlock := false; lang := lang st; filename := filename st;
          blockLines := blockLines st;
          artifacts := artifacts st ++
            [ {| Filename := filename st;
                 Content := strings.Join (blockLines st) strings.newline;
                 Language := lang st |} ] |}) /\
  (line <> fence ->
     scanLine st line =
       {| inBlock := true; lang := lang st; filename := filename st;
          blockLines := blockLines st ++ [line];
          artifacts := artifacts st |}).
Proof.
  intros Hin Hp. split.
  - intros ->. now apply scanLine_close.
  - intros Hne. rewrite scanLine_inside by assumption.
    now rewrite hintFilename_other by now apply fenced_not_hint.
Qed.

Lemma fence_line_inside_block_witness :
  scanLine (scanLines scanStart ["```go"; "package a"]) "```yaml" =
    {| inBlock := true; lang := "go"; filename := "";
       blockLines := ["package a"; "```yaml"]; artifacts := [] |} /\
  artifacts (scanLine (scanLines scanStart ["```go"; "package a"]) fence) =
    [ {| Filename := ""; Content := "package a"; Language := "go" |} ].
Proof.
  split.
  - apply (fence_line_inside_block
             (scanLines scanStart ["```go"; "package a"]) "```yaml");
      [reflexivity | reflexivity | discriminate].
  - rewrite (proj1 (fence_line_inside_block
                      (scanLines scanStart ["```go"; "package a"]) fence
                      eq_refl eq_refl) eq_refl).
    reflexivity.
Defined.

(** C7: in a block, a line that begins with one of the two hint prefixes
    sets the filename to the text after its first colon, trimmed of
    surrounding white space, whatever hint was recorded before; the hint
    that is not followed by another one is the filename of the artifact the
    block emits, and the hint lines are part of its content as they are. *)
Theorem hint_lines_set_filename
    (st : scan) (opener : string) (pre : list string)
    (hint before value : string) (post : list string) :
  inBlock st = false ->
  strings.HasPrefix opener fence = true ->
  Forall (fun line => line <> fence) pre ->
  isHint hint = true ->
  hint = before +:+ String strings.colon value ->
  ~ occurs strings.colon before ->
  Forall (fun line => line <> fence) post ->
  Forall (fun line => isHint line = false) post ->
  scanLines st (opener :: pre ++ [hint]) =
    {| inBlock := true;
       lang := strings.TrimPrefix opener fence;
       filename := strings.TrimSpace value;
       blockLines := pre ++ [hint];
       artifacts := artifacts st |} /\
  artifacts (scanLines st (opener :: pre ++ hint :: post ++ [fence])) =
    (artifacts st ++
      [ {| Filename := strings.TrimSpace value;
           Content := strings.Join (pre ++ hint :: post) strings.newline;
           Language := strings.TrimPrefix opener fence |} ])%list.
Proof.
  intros Hout Hopen Hpre Hhint Hcut Hbefore Hpost Hnohint.
  assert (Hne : hint <> fence).
  { intros ->. apply isHint_not_fenced in Hhint.
    rewrite fence_fenced in Hhint. discriminate. }
  assert (Hstep : forall lines,
    scanLines st (opener :: lines) =
    scanLines {| inBlock := true; lang := strings.TrimPrefix opener fence;
                 filename := ""; blockLines := [];
                 artifacts := artifacts st |} lines).
  { intros lines.
    change (scanLines st (opener :: lines))
      with (scanLines (scanLine st opener) lines).
    now rewrite scanLine_open. }
  assert (Hinside :
    scanLines st (opener :: pre ++ [hint]) =
    {| inBlock := true; lang := strings.TrimPrefix opener fence;
       filename := strings.TrimSpace value; blockLines := pre ++ [hint];
       artifacts := artifacts st |}).
  { rewrite Hstep, scanLines_inside.
    - simpl. rewrite fold_left_app. simpl.
      now rewrite (hintFilename_hint _ _ before value).
    - reflexivity.
    - apply Forall_app. split; [assumption | now constructor]. }
  split; [exact Hinside |].
  replace (opener :: pre ++ hint :: post ++ [fence])
    with ((opener :: pre ++ [hint]) ++ post ++ [fence])
    by (simpl; now rewrite <- app_assoc).
  rewrite scanLines_app, Hinside, scanLines_app.
  rewrite (scanLines_inside post); [|reflexivity | assumption].
  change (scanLines ?s [fence]) with (scanLine s fence).
  rewrite scanLine_close by reflexivity. simpl.
  rewrite fold_hintFilename_other by assumption.
  now rewrite <- app_assoc.
Qed.

Lemma hint_lines_set_filename_witness :
  scanLines scanStart ["```go"; "// file: old.go"; "# file:  new.go "] =
    {| inBlock := true; lang := "go"; filename := "new.go";
       blockLines := ["// file: old.go"; "# file:  new.go "];
       artifacts := [] |} /\
  artifacts
    (scanLines scanStart
       ["```go"; "// file: old.go"; "# file:  new.go "; "package a"; "```"]) =
    [ {| Filename := "new.go";
         Content := "// file: old.go
# file:  new.go 
package a";
         Language := "go" |} ].
Proof.
  apply (hint_lines_set_filename scanStart "```go" ["// file: old.go"]
           "# file:  new.go " "# file" "  new.go " ["package a"]).
  - reflexivity.
  - reflexivity.
  - repeat constructor. discriminate.
  - reflexivity.
  - reflexivity.
  - simpl. intros H. repeat (destruct H as [H|H]; [discriminate |]). exact H.
  - repeat constructor. discriminate.
  - repeat constructor.
Defined.

(** C3: when the lines of the input are [pre], then a line that opens a
    block outside of any block, then lines none of which is the bare
    fence, the block is never closed: the extractor returns the artifacts
    of the blocks closed in [pre] and nothing for the open block, whose
    lines stay in the local variable that is dropped on return. *)
Theorem unclosed_block_dropped
    (output : string) (pre : list string) (opener : string) (body : list string) :
  strings.Split output strings.LF = pre ++ opener :: body ->
  inBlock (scanLines scanStart pre) = false ->
  strings.HasPrefix opener fence = true ->
  Forall (fun line => line <> fence) body ->
  ParseArtifacts output = artifacts (scanLines scanStart pre) /\
  (pre <> [] ->
     ParseArtifacts output = ParseArtifacts (strings.Join pre strings.newline)) /\
  (pre = [] -> ParseArtifacts output = []) /\
  inBlock (scanLines scanStart (strings.Split output strings.LF)) = true /\
  blockLines (scanLines scanStart (strings.Split output strings.LF)) = body.
Proof.
  intros Hsplit Hout Hopen Hbody.
  assert (Hfinal :
    scanLines scanStart (strings.Split output strings.LF) =
    {| inBlock := true; lang := strings.TrimPrefix opener fence;
       filename := fold_left hintFilename body "";
       blockLines := body;
       artifacts := artifacts (scanLines scanStart pre) |}).
  { rewrite Hsplit, scanLines_app.
    change (scanLines ?s (opener :: body))
      with (scanLines (scanLine s opener) body).
    rewrite scanLine_open by assumption.
    rewrite scanLines_inside; [reflexivity | reflexivity | assumption]. }
  assert (Hart : ParseArtifacts output = artifacts (scanLines scanStart pre)).
  { unfold ParseArtifacts. now rewrite Hfinal. }
  repeat split.
  - exact Hart.
  - intros Hne. rewrite Hart. unfold ParseArtifacts.
    rewrite Split_Join; [reflexivity | exact Hne |].
    pose proof (Split_no_sep output strings.LF) as Hno.
    rewrite Hsplit in Hno. apply Forall_app in Hno. tauto.
  - intros ->. exact Hart.
  - now rewrite Hfinal.
  - now rewrite Hfinal.
Qed.

Lemma unclosed_block_dropped_witness :
  ParseArtifacts "```go
package a
```
notes
```sql
select 1;
``` " =
  [ {| Filename := ""; Content := "package a"; Language := "go" |} ].
Proof.
  refine (proj1 (unclosed_block_dropped
                   (strings.Join ["```go"; "package a"; "```"; "notes";
                                  "```sql"; "select 1;"; "``` "] strings.newline)
                   ["```go"; "package a"; "```"; "notes"]
                   "```sql" ["select 1;"; "``` "] eq_refl eq_refl eq_refl _)).
  repeat constructor; discriminate.
Defined.

(** ** The service definition *)

Lemma concat_empty_cons (x : string) (xs : list string) :
  String.concat "" (x :: xs) = x +:+ String.concat "" xs.
Proof.
  destruct xs as [|y ys]; simpl; [now rewrite append_empty_r | reflexivity].
Qed.

Lemma appendBullets_concat (items : list string) (p : string) :
  config.appendBullets p items = p +:+ String.concat "" (map config.bullet items).
Proof.
  unfold config.appendBullets. revert p.
  induction items as [|e items IH]; intros p.
  - simpl. now rewrite append_empty_r.
  - cbn [fold_left map]. rewrite IH, concat_empty_cons. apply append_assoc.
Qed.

Lemma appendSection_section (p title : string) (items : list string) :
  config.appendSection p (title +:+ strings.newline) items =
  p +:+ config.section title items.
Proof.
  unfold config.appendSection, config.section.
  destruct items as [|e items].
  - simpl. now rewrite append_empty_r.
  - change (0 <? length (e :: items))%nat with true. cbv iota.
    rewrite appendBullets_concat. now rewrite !append_assoc.
Qed.

Lemma Prompt_by_sections (s : config.ServiceDefinition) :
  config.Prompt s = config.PromptBySections s.
Proof.
  unfold config.Prompt, config.PromptBySections, config.renderedSections.
  cbv zeta. rewrite !appendSection_section, !concat_empty_cons.
  change (String.concat "" []) with "".
  now rewrite append_empty_r, !append_assoc.
Qed.

(** C9: the rendered prompt depends on the seven fields of the descriptor
    and on nothing else, so two renderings of descriptors with the same
    fields are the same text; the text is the sections for name,
    description, language, entities, operations, integrations and extra
    requirements in this order, an empty sequence giving no section. *)
Theorem prompt_deterministic (s s' : config.ServiceDefinition) :
  config.Name s = config.Name s' ->
  config.Description s = config.Description s' ->
  config.Language s = config.Language s' ->
  config.Entities s = config.Entities s' ->
  config.Operations s = config.Operations s' ->
  config.Integrations s = config.Integrations s' ->
  config.ExtraRequirements s = config.ExtraRequirements s' ->
  config.Prompt s = config.Prompt s' /\
  config.Prompt s =
    String.concat ""
      [ "Microservice Name: " +:+ config.Name s +:+ config.LFLF;
        "Description:" +:+ strings.newline +:+ config.Description s +:+ config.LFLF;
        "Language: " +:+ config.Language s +:+ config.LFLF;
        config.section "Core Domain Entities:" (config.Entities s);
        config.section "Key Business Operations:" (config.Operations s);
        config.section "External Integrations:" (config.Integrations s);
        config.section "Additional Requirements:" (config.ExtraRequirements s) ].
Proof.
  intros Hn Hd Hl He Ho Hi Hx. split.
  - destruct s, s'; simpl in *. now subst.
  - apply Prompt_by_sections.
Qed.

Lemma prompt_deterministic_witness :
  config.Prompt ordersService = config.Prompt ordersService /\
  config.Prompt ordersService =
  "Microservice Name: orders

Description:
Manages the order lifecycle for an e-commerce platform

Language: Go

Core Domain Entities:
  - Order
  - OrderItem
  - Address

Key Business Operations:
  - Place order
  - Cancel order
  - Track shipment

External Integrations:
  - Inventory Service (Kafka)
  - PostgreSQL

".
Proof.
  exact (prompt_deterministic ordersService ordersService
           eq_refl eq_refl eq_refl eq_refl eq_refl eq_refl eq_refl).
Defined.

(** ** The agents *)

Lemma nameAt_lookup (rule : naming) (cur : list Artifact) (j i : nat) :
  nameAt rule cur j !! i =
  if decide (i = j) then renamed rule j <$> cur !! j else cur !! i.
Proof.
  unfold nameAt, renamed.
  destruct (cur !! j) as [art|] eqn:E.
  - destruct (rule j art) as [name|] eqn:R.
    + case_decide as Hij.
      * subst i. rewrite list_lookup_alter_eq, E. simpl. now rewrite R.
      * now rewrite list_lookup_alter_ne by congruence.
    + case_decide as Hij; [subst i; rewrite E; simpl; now rewrite R | reflexivity].
  - case_decide as Hij; [subst i; now rewrite E | reflexivity].
Qed.

Lemma nameAt_length (rule : naming) (cur : list Artifact) (j : nat) :
  length (nameAt rule cur j) = length cur.
Proof.
  unfold nameAt. destruct (cur !! j); [|reflexivity].
  destruct (rule j a); [apply length_alter | reflexivity].
Qed.

(** The iterations for the indices [k], ..., [k + n - 1] rename these
    positions and leave the others. *)
Lemma nameAt_fold_lookup (rule : naming) (n k : nat) (cur : list Artifact) (i : nat) :
  fold_left (nameAt rule) (seq k n) cur !! i =
  if decide (k <= i < k + n) then renamed rule i <$> cur !! i else cur !! i.
Proof.
  revert k cur. induction n as [|n IH]; intros k cur.
  - simpl. case_decide; [lia | reflexivity].
  - cbn [seq fold_left]. rewrite IH, nameAt_lookup.
    repeat case_decide; try lia; subst; reflexivity.
Qed.

Lemma nameAt_fold_length (rule : naming) (n k : nat) (cur : list Artifact) :
  length (fold_left (nameAt rule) (seq k n) cur) = length cur.
Proof.
  revert k cur. induction n as [|n IH]; intros k cur; [reflexivity |].
  cbn [seq fold_left]. now rewrite IH, nameAt_length.
Qed.

Lemma nameLoop_lookup (rule : naming) (arts : list Artifact) (i : nat) :
  nameLoop rule arts !! i = renamed rule i <$> arts !! i.
Proof.
  unfold nameLoop. rewrite nameAt_fold_lookup.
  case_decide as H; [reflexivity |].
  rewrite (lookup_ge_None_2 arts i) by lia. reflexivity.
Qed.

Lemma nameLoop_length (rule : naming) (arts : list Artifact) :
  length (nameLoop rule arts) = length arts.
Proof. apply nameAt_fold_length. Qed.

(** A [Run] that returns a result made exactly one call of [Chat], which
    gave the output it reports, and named the extracted artifacts. *)
Lemma Run_returned (s : stage) (a : BaseAgent) (req : request s)
    (agentContext : gmap string string) (res : AgentResult) :
  returned (Run s a req agentContext) = inl res ->
  Chat a [NewUserMessage (prompt s req agentContext)] = (Output res, None) /\
  AgentName res = Name a /\
  Artifacts res = nameLoop (namingOf s) (ParseArtifacts (Output res)).
Proof.
  assert (H : forall p rule,
    returned (chatAndExtract a p rule) = inl res ->
    Chat a [NewUserMessage p] = (Output res, None) /\
    AgentName res = Name a /\
    Artifacts res = nameLoop rule (ParseArtifacts (Output res))).
  { intros p rule. unfold chatAndExtract.
    destruct (Chat a [NewUserMessage p]) as [output [e|]]; simpl; [discriminate |].
    intros [= <-]. simpl. auto. }
  destruct s; apply H.
Qed.

Lemma goOnly_spec (family : string) (i : nat) (art : Artifact) :
  goOnly family i art =
  if decide (Filename art = "" /\ Language art = "go")
  then Some (family +:+ "_" +:+ itoa (i + 1) +:+ ".go") else None.
Proof.
  unfold goOnly.
  destruct (String.eqb_spec (Filename art) ""), (String.eqb_spec (Language art) "go");
    simpl; case_decide; tauto || reflexivity.
Qed.

Lemma backendNaming_spec (i : nat) (art : Artifact) :
  backendNaming i art =
  if decide (Filename art = "") then
    if decide (Language art = "go")
    then Some ("service_" +:+ itoa (i + 1) +:+ ".go")
    else if decide (Language art = "sql")
    then Some ("migration_" +:+ itoa (i + 1) +:+ ".sql")
    else None
  else None.
Proof.
  unfold backendNaming.
  destruct (String.eqb_spec (Filename art) ""), (String.eqb_spec (Language art) "go"),
    (String.eqb_spec (Language art) "sql");
    repeat case_decide; tauto || reflexivity.
Qed.

(** The rule of a stage gives a name only to a hintless artifact whose
    language is mapped, and no name otherwise. *)
Lemma namingOf_Some (s : stage) (i : nat) (art : Artifact) (name : string) :
  namingOf s i art = Some name ->
  Filename art = "" /\ mapped s (Language art).
Proof.
  unfold mapped, sqlStage.
  destruct s; simpl;
    unfold apiNaming, messagingNaming, testingNaming, inventory.testingNaming;
    rewrite ?goOnly_spec, ?backendNaming_spec;
    repeat case_decide; intros [= <-]; intuition auto.
Qed.

Lemma namingOf_go (s : stage) (i : nat) (art : Artifact) :
  Filename art = "" -> Language art = "go" ->
  namingOf s i art = Some (goFamily s +:+ "_" +:+ itoa (i + 1) +:+ ".go").
Proof.
  intros Hf Hl.
  destruct s; simpl;
    unfold apiNaming, messagingNaming, testingNaming, inventory.testingNaming;
    rewrite ?goOnly_spec, ?backendNaming_spec;
    repeat case_decide; tauto || reflexivity.
Qed.

Lemma namingOf_sql (s : stage) (i : nat) (art : Artifact) :
  sqlStage s ->
  Filename art = "" -> Language art = "sql" ->
  namingOf s i art = Some ("migration_" +:+ itoa (i + 1) +:+ ".sql").
Proof.
  intros [-> | ->] Hf Hl; simpl; rewrite backendNaming_spec;
    repeat case_decide; try tauto; try reflexivity; congruence.
Qed.

Lemma namingOf_None (s : stage) (i : nat) (art : Artifact) :
  Filename art <> "" \/ ~ mapped s (Language art) ->
  namingOf s i art = None.
Proof.
  intros H. destruct (namingOf s i art) as [name|] eqn:E; [|reflexivity].
  apply namingOf_Some in E. tauto.
Qed.

(** C10: the default-naming pass of a stage keeps the number and the order
    of the extracted artifacts, and the content and the language of each;
    an artifact that has a filename, or whose language the stage has no
    default name for, is returned as the extractor gave it. *)
Theorem default_naming_frame (s : stage) (a : BaseAgent)
    (req : request s) (agentContext : gmap string string)
    (res : AgentResult) :
  returned (Run s a req agentContext) = inl res ->
  length (Artifacts res) = length (ParseArtifacts (Output res)) /\
  forall (i : nat) (art : Artifact),
    ParseArtifacts (Output res) !! i = Some art ->
    exists art',
      Artifacts res !! i = Some art' /\
      Content art' = Content art /\
      Language art' = Language art /\
      (Filename art <> "" \/ ~ mapped s (Language art) -> art' = art).
Proof.
  intros Hrun. destruct (Run_returned _ _ _ _ _ Hrun) as (_ & _ & ->).
  split; [apply nameLoop_length |].
  intros i art Hi. rewrite nameLoop_lookup, Hi. simpl.
  eexists. split; [reflexivity |].
  unfold renamed.
  destruct (namingOf s i art) as [name|] eqn:E; simpl.
  - repeat split; try reflexivity.
    intros H. apply namingOf_Some in E. tauto.
  - auto.
Qed.

Lemma default_naming_frame_witness :
  returned (Run APIDesign exampleAgent ordersService ∅) = inl exampleResult /\
  length (Artifacts exampleResult) = length (ParseArtifacts (Output exampleResult)).
Proof.
  assert (H : returned (Run APIDesign exampleAgent ordersService ∅) = inl exampleResult)
    by (vm_compute; reflexivity).
  split; [exact H |].
  exact (proj1 (default_naming_frame APIDesign exampleAgent ordersService ∅
                  exampleResult H)).
Defined.

(** C1, as the code has it: a stage names an extracted artifact that has no
    filename [family_n.go] when its language is ["go"], and the backend
    stage names it [migration_n.sql] when its language is ["sql"], [n]
    being the 1-based position of the artifact among all the artifacts
    extracted from the output; an artifact without a filename whose
    language the stage has no default name for keeps the empty filename. *)
Theorem default_names_by_position (s : stage) (a : BaseAgent)
    (req : request s) (agentContext : gmap string string)
    (res : AgentResult) (i : nat) (art : Artifact) :
  returned (Run s a req agentContext) = inl res ->
  ParseArtifacts (Output res) !! i = Some art ->
  Filename art = "" ->
  (Language art = "go" ->
     Artifacts res !! i =
       Some (setFilename art (goFamily s +:+ "_" +:+ itoa (i + 1) +:+ ".go"))) /\
  (sqlStage s -> Language art = "sql" ->
     Artifacts res !! i =
       Some (setFilename art ("migration_" +:+ itoa (i + 1) +:+ ".sql"))) /\
  (~ mapped s (Language art) -> Artifacts res !! i = Some art).
Proof.
  intros Hrun Hi Hf. destruct (Run_returned _ _ _ _ _ Hrun) as (_ & _ & ->).
  rewrite nameLoop_lookup, Hi. simpl. unfold renamed.
  repeat split.
  - intros Hl. now rewrite namingOf_go.
  - intros Hs Hl. now rewrite namingOf_sql.
  - intros Hm. now rewrite namingOf_None by tauto.
Qed.

Lemma default_names_by_position_witness :
  Artifacts exampleResult !! 1 =
    Some {| Filename := "api_2.go"; Content := "package api"; Language := "go" |} /\
  Artifacts exampleResult !! 2 =
    Some {| Filename := ""; Content := "a: 1"; Language := "yaml" |}.
Proof.
  assert (H : returned (Run APIDesign exampleAgent ordersService ∅) = inl exampleResult)
    by (vm_compute; reflexivity).
  split.
  - exact (proj1 (default_names_by_position APIDesign exampleAgent ordersService ∅
                    exampleResult 1
                    {| Filename := ""; Content := "package api"; Language := "go" |}
                    H eq_refl eq_refl) eq_refl).
  - refine (proj2 (proj2 (default_names_by_position APIDesign exampleAgent
                            ordersService ∅ exampleResult 2
                            {| Filename := ""; Content := "a: 1"; Language := "yaml" |}
                            H eq_refl eq_refl)) _).
    unfold mapped, sqlStage. simpl. intros [Hgo | [[Hs | Hs] _]]; discriminate.
Defined.

(** C1, as the specification words it, fails on the answer [threeBlocks]:
    the Go block without a hint is the second block and the first one
    lacking a hint, and the stage names it [api_2.go], not [api_1.go]; the
    YAML block without a hint keeps its empty filename. *)
Lemma default_names_counterexample :
  returned (Run APIDesign exampleAgent ordersService ∅) = inl exampleResult /\
  Artifacts exampleResult <>
    Spec.defaultNames "api" (ParseArtifacts (Output exampleResult)) /\
  Filename <$> Artifacts exampleResult !! 1 = Some "api_2.go" /\
  Filename <$> Spec.defaultNames "api" (ParseArtifacts (Output exampleResult)) !! 1
    = Some "api_1.go" /\
  Filename <$> Artifacts exampleResult !! 2 = Some "" /\
  Filename <$> Spec.defaultNames "api" (ParseArtifacts (Output exampleResult)) !! 2
    = Some "api_2.yaml".
Proof.
  split; [vm_compute; reflexivity |].
  split; [vm_compute; discriminate |].
  repeat split; vm_compute; reflexivity.
Qed.

(** C4: when [Chat] returns an error, the [Run] of a stage returns no
    result and the error of [Chat] wrapped in one whose message starts with
    the name of the stage in brackets; whatever text came with the error is
    not looked at: the one call [Run] made is the call of [Chat], and
    [ParseArtifacts] was not called. *)
Theorem chat_error_aborts_run (s : stage) (a : BaseAgent)
    (req : request s) (agentContext : gmap string string)
    (partial : string) (e : error) :
  Chat a [NewUserMessage (prompt s req agentContext)] = (partial, Some e) ->
  result (Run s a req agentContext) = None /\
  err (Run s a req agentContext) =
    Some (wrapError ("[" +:+ Name a +:+ "] failed: " +:+ Error e) e) /\
  (exists e', err (Run s a req agentContext) = Some e' /\
              Unwrap e' = Some e /\ substring_of (Name a) (Error e')) /\
  calls (Run s a req agentContext) =
    [CallChat [NewUserMessage (prompt s req agentContext)]] /\
  (forall output, ~ In (CallParseArtifacts output) (calls (Run s a req agentContext))).
Proof.
  intros Hchat.
  assert (H : Run s a req agentContext =
    {| returned := inr (failed (Name a) e);
       calls := [CallChat [NewUserMessage (prompt s req agentContext)]] |}).
  { assert (Hc : forall rule,
      chatAndExtract a (prompt s req agentContext) rule =
      {| returned := inr (failed (Name a) e);
         calls := [CallChat [NewUserMessage (prompt s req agentContext)]] |}).
    { intros rule. unfold chatAndExtract. now rewrite Hchat. }
    destruct s; apply Hc. }
  assert (Hmsg : failed (Name a) e =
                 wrapError ("[" +:+ Name a +:+ "] failed: " +:+ Error e) e).
  { unfold failed, Errorf. now rewrite !append_assoc. }
  rewrite H. unfold result, err. simpl. rewrite Hmsg.
  split; [reflexivity |]. split; [reflexivity |]. split; [| split].
  - eexists. split; [reflexivity |]. split; [reflexivity |].
    exists "[", ("] failed: " +:+ Error e). reflexivity.
  - reflexivity.
  - intros output [Hin | []]. discriminate.
Qed.

Lemma chat_error_aborts_run_witness :
  result (Run APIDesign failingAgent ordersService ∅) = None /\
  err (Run APIDesign failingAgent ordersService ∅) =
    Some (wrapError "[API Design Agent] failed: claude API error: connection refused"
            (wrapError "claude API error: connection refused"
               (errorNew "connection refused"))).
Proof.
  pose proof (chat_error_aborts_run APIDesign failingAgent ordersService ∅ ""
                (Errorf "claude API error: " (errorNew "connection refused"))
                eq_refl) as (H1 & H2 & _).
  split; [exact H1 | exact H2].
Defined.

(** ** The orchestrator *)

Lemma truncate_long (rawOutput : string) :
  orchestrator.contextCap < String.length rawOutput ->
  orchestrator.truncate rawOutput = strings.take orchestrator.contextCap rawOutput.
Proof.
  intros H. unfold orchestrator.truncate.
  apply Nat.ltb_lt in H. now rewrite H.
Qed.

Lemma truncate_short (rawOutput : string) :
  String.length rawOutput <= orchestrator.contextCap ->
  orchestrator.truncate rawOutput = rawOutput.
Proof.
  intros H. unfold orchestrator.truncate.
  apply Nat.ltb_ge in H. now rewrite H.
Qed.

Lemma runStage_returned (cfg : config.Config) (svc : config.ServiceDefinition)
    (r : orchestrator.run) (s : orchestrator.Stage) (res : AgentResult) :
  returned (Agent_Run (orchestrator.factory s cfg svc) svc (orchestrator.agentContext r))
    = inl res ->
  orchestrator.runStage cfg svc r s =
    ({| orchestrator.agentContext :=
          <[orchestrator.contextKey s := orchestrator.truncate (Output res)]>
            (orchestrator.agentContext r);
        orchestrator.results := orchestrator.results r ++ [res];
        orchestrator.started :=
          orchestrator.started r ++ [Agent_Name (orchestrator.factory s cfg svc)] |},
     None).
Proof. intros H. unfold orchestrator.runStage. now rewrite H. Qed.

Lemma runStage_failed (cfg : config.Config) (svc : config.ServiceDefinition)
    (r : orchestrator.run) (s : orchestrator.Stage) (e : error) :
  returned (Agent_Run (orchestrator.factory s cfg svc) svc (orchestrator.agentContext r))
    = inr e ->
  orchestrator.runStage cfg svc r s =
    ({| orchestrator.agentContext := orchestrator.agentContext r;
        orchestrator.results := orchestrator.results r;
        orchestrator.started :=
          orchestrator.started r ++ [Agent_Name (orchestrator.factory s cfg svc)] |},
     Some (orchestrator.stageFailure
             (Agent_Name (orchestrator.factory s cfg svc)) e)).
Proof. intros H. unfold orchestrator.runStage. now rewrite H. Qed.

Lemma runStages_app (cfg : config.Config) (svc : config.ServiceDefinition)
    (l1 l2 : list orchestrator.Stage) (r r' : orchestrator.run) :
  orchestrator.runStages cfg svc r l1 = (r', None) ->
  orchestrator.runStages cfg svc r (l1 ++ l2) = orchestrator.runStages cfg svc r' l2.
Proof.
  revert r. induction l1 as [|s l1 IH]; intros r H; simpl in *.
  - now injection H as ->.
  - destruct (orchestrator.runStage cfg svc r s) as [r1 [e|]]; [discriminate |].
    now apply IH.
Qed.

(** Every stage that succeeds adds one result and one name. *)
Lemma runStages_counts (cfg : config.Config) (svc : config.ServiceDefinition)
    (ss : list orchestrator.Stage) (r r' : orchestrator.run) :
  orchestrator.runStages cfg svc r ss = (r', None) ->
  length (orchestrator.results r') = length (orchestrator.results r) + length ss /\
  length (orchestrator.started r') = length (orchestrator.started r) + length ss.
Proof.
  revert r. induction ss as [|s ss IH]; intros r H; simpl in *.
  - injection H as ->. lia.
  - destruct (orchestrator.runStage cfg svc r s) as [r1 [e|]] eqn:E; [discriminate |].
    apply IH in H. unfold orchestrator.runStage in E.
    destruct (returned _) in E; [|discriminate].
    injection E as <-. simpl in H.
    rewrite !length_app in H. simpl in H. lia.
Qed.

(** C5: after a stage that succeeded, the context holds under the key of
    the stage the raw output cut at the cap: for an output longer than
    3000 characters the first 3000 characters of it, of length 3000 exactly,
    and for an output within the cap the output itself; the stages that
    follow run on this context. *)
Theorem context_holds_truncated_output
    (cfg : config.Config) (svc : config.ServiceDefinition)
    (r : orchestrator.run) (s : orchestrator.Stage) (res : AgentResult) :
  returned (Agent_Run (orchestrator.factory s cfg svc) svc (orchestrator.agentContext r))
    = inl res ->
  exists stored,
    orchestrator.agentContext (fst (orchestrator.runStage cfg svc r s))
      !! orchestrator.contextKey s = Some stored /\
    (3000 < String.length (Output res) ->
       String.length stored = 3000 /\
       stored = strings.take 3000 (Output res) /\
       exists rest, Output res = stored +:+ rest) /\
    (String.length (Output res) <= 3000 -> stored = Output res) /\
    (forall rest,
       orchestrator.runStages cfg svc r (s :: rest) =
       orchestrator.runStages cfg svc (fst (orchestrator.runStage cfg svc r s)) rest).
Proof.
  intros Hrun. exists (orchestrator.truncate (Output res)).
  rewrite (runStage_returned _ _ _ _ _ Hrun). cbn [fst].
  split; [apply lookup_insert_eq |].
  split; [| split].
  - intros Hlong. rewrite truncate_long by exact Hlong.
    change orchestrator.contextCap with 3000.
    split; [apply length_take; lia |]. split; [reflexivity |].
    exists (strings.drop 3000 (Output res)). symmetry. apply take_drop.
  - apply truncate_short.
  - intros rest. cbn [orchestrator.runStages].
    now rewrite (runStage_returned _ _ _ _ _ Hrun).
Qed.

Lemma context_holds_truncated_output_witness :
  String.length (Output longResult) = 3010 /\
  exists stored,
    orchestrator.agentContext
      (fst (orchestrator.runStage exampleConfig ordersService
              (orchestrator.seed ordersService) longStage))
      !! "api_design" = Some stored /\
    String.length stored = 3000.
Proof.
  split; [vm_compute; reflexivity |].
  assert (H : returned
                (Agent_Run (orchestrator.factory longStage exampleConfig ordersService)
                   ordersService
                   (orchestrator.agentContext (orchestrator.seed ordersService)))
              = inl longResult) by (vm_compute; reflexivity).
  destruct (context_holds_truncated_output exampleConfig ordersService
              (orchestrator.seed ordersService) longStage longResult H)
    as (stored & Hstored & Hlong & _).
  exists stored. split; [exact Hstored |].
  apply Hlong. vm_compute. lia.
Defined.

(** C6: when the stages before [s] succeed and [s] returns an error,
    [Pipeline.Run] returns no result and the error of [s] wrapped with the
    name of [s]; the stages after [s] are not run, and the results of the
    stages before [s], one for each, are not returned. *)
Theorem failing_stage_aborts_pipeline
    (p : orchestrator.Pipeline) (svc : config.ServiceDefinition)
    (pre : list orchestrator.Stage) (s : orchestrator.Stage)
    (post : list orchestrator.Stage) (r : orchestrator.run) (e : error) :
  orchestrator.stages p = pre ++ s :: post ->
  orchestrator.runStages (orchestrator.pipelineCfg p) svc (orchestrator.seed svc) pre
    = (r, None) ->
  returned (Agent_Run (orchestrator.factory s (orchestrator.pipelineCfg p) svc) svc
              (orchestrator.agentContext r)) = inr e ->
  orchestrator.pipelineResult (orchestrator.Pipeline_Run p svc) = None /\
  (exists e',
     orchestrator.pipelineErr (orchestrator.Pipeline_Run p svc) = Some e' /\
     Unwrap e' = Some e /\
     substring_of
       (Agent_Name (orchestrator.factory s (orchestrator.pipelineCfg p) svc))
       (Error e')) /\
  orchestrator.ran (orchestrator.Pipeline_Run p svc) =
    orchestrator.started r ++
      [Agent_Name (orchestrator.factory s (orchestrator.pipelineCfg p) svc)] /\
  length (orchestrator.ran (orchestrator.Pipeline_Run p svc)) = length pre + 1 /\
  length (orchestrator.results r) = length pre.
Proof.
  intros Hstages Hpre Hfail.
  unfold orchestrator.Pipeline_Run, orchestrator.pipelineResult,
    orchestrator.pipelineErr.
  rewrite Hstages, (runStages_app _ _ _ _ _ _ Hpre).
  cbn [orchestrator.runStages]. rewrite (runStage_failed _ _ _ _ _ Hfail).
  destruct (runStages_counts _ _ _ _ _ Hpre) as [Hres Hran]. simpl in Hres, Hran.
  simpl. split; [reflexivity |]. split; [| split; [reflexivity | split]].
  - eexists. split; [reflexivity |]. split; [reflexivity |].
    exists "", (": " +:+ Error e). unfold orchestrator.stageFailure, Errorf.
    simpl. now rewrite append_assoc.
  - rewrite length_app. simpl. lia.
  - exact Hres.
Qed.

Lemma failing_stage_aborts_pipeline_witness :
  orchestrator.pipelineResult (orchestrator.Pipeline_Run brokenPipeline ordersService)
    = None /\
  orchestrator.ran (orchestrator.Pipeline_Run brokenPipeline ordersService) =
    ["API Design Agent"; "Backend & Database Agent"].
Proof.
  pose (r := fst (orchestrator.runStages exampleConfig ordersService
                    (orchestrator.seed ordersService)
                    (take 1 (orchestrator.stages brokenPipeline)))).
  assert (Hpre : orchestrator.runStages (orchestrator.pipelineCfg brokenPipeline)
                   ordersService (orchestrator.seed ordersService)
                   (take 1 (orchestrator.stages brokenPipeline)) = (r, None))
    by (vm_compute; reflexivity).
  destruct (failing_stage_aborts_pipeline brokenPipeline ordersService
              (take 1 (orchestrator.stages brokenPipeline))
              {| orchestrator.factory := NewBackendDBAgent refusing;
                 orchestrator.contextKey := "backend_db" |}
              (drop 2 (orchestrator.stages brokenPipeline)) r
              (failed "Backend & Database Agent"
                 (Errorf "claude API error: " (errorNew "connection refused")))
              eq_refl Hpre ltac:(vm_compute; reflexivity))
    as (Hnone & _ & Hran & _).
  split; [exact Hnone |].
  rewrite Hran. vm_compute. reflexivity.
Defined.

(** * Further properties of the extractor *)

Lemma Split_app (a b : string) (sep : ascii) :
  strings.Split (a +:+ String sep b) sep =
  strings.Split a sep ++ strings.Split b sep.
Proof.
  induction a as [|c a IH]; sapp; simpl.
  - now rewrite Ascii.eqb_refl.
  - destruct (Ascii.eqb_spec c sep) as [->|Hc].
    + now rewrite IH.
    + rewrite IH.
      pose proof (Split_nonempty a sep) as Hne.
      destruct (strings.Split a sep) as [|h t]; [congruence | reflexivity].
Qed.

Lemma Split_text (a b : string) :
  strings.Split (a +:+ strings.newline +:+ b) strings.LF =
  strings.Split a strings.LF ++ strings.Split b strings.LF.
Proof. unfold strings.newline. sapp. apply Split_app. Qed.

Lemma scanLines_snoc (st : scan) (lines : list string) (line : string) :
  scanLines st (lines ++ [line]) = scanLine (scanLines st lines) line.
Proof. now rewrite scanLines_app. Qed.

Lemma scanLines_cons (st : scan) (lines : list string) (line : string) :
  scanLines st (line :: lines) = scanLines (scanLine st line) lines.
Proof. reflexivity. Qed.

(** The three ways a line is handled, and the case where nothing happens. *)
Lemma scanLine_cases (st : scan) (line : string) :
  (inBlock st = false /\ strings.HasPrefix line fence = true /\
   scanLine st line =
     {| inBlock := true; lang := strings.TrimPrefix line fence; filename := "";
        blockLines := []; artifacts := artifacts st |}) \/
  (inBlock st = true /\ line = fence /\
   scanLine st line =
     {| inBlock := false; lang := lang st; filename := filename st;
        blockLines := blockLines st;
        artifacts := artifacts st ++
          [ {| Filename := filename st;
               Content := strings.Join (blockLines st) strings.newline;
               Language := lang st |} ] |}) \/
  (inBlock st = true /\ line <> fence /\
   scanLine st line =
     {| inBlock := true; lang := lang st;
        filename := hintFilename (filename st) line;
        blockLines := blockLines st ++ [line];
        artifacts := artifacts st |}) \/
  (inBlock st = false /\ strings.HasPrefix line fence = false /\
   scanLine st line = st).
Proof.
  destruct (inBlock st) eqn:Hin.
  - destruct (string_dec line fence) as [->|Hne].
    + right; left. auto using scanLine_close.
    + right; right; left. auto using scanLine_inside.
  - destruct (strings.HasPrefix line fence) eqn:Hp.
    + left. auto using scanLine_open.
    + right; right; right. auto using scanLine_outside.
Qed.

Lemma scanLines_prose (st : scan) (lines : list string) :
  inBlock st = false -> proseLines lines -> scanLines st lines = st.
Proof.
  intros Hin Hall. induction Hall as [|line lines Hline _ IH]; [reflexivity |].
  now rewrite scanLines_cons, scanLine_outside.
Qed.

Lemma proseLines_check (lines : list string) :
  forallb (fun line => negb (strings.HasPrefix line fence)) lines = true ->
  proseLines lines.
Proof.
  induction lines as [|line lines IH]; simpl; intros H; [constructor |].
  apply andb_true_iff in H. destruct H as [H1 H2].
  constructor; [now destruct (strings.HasPrefix line fence) | exact (IH H2)].
Qed.

(** X1: a text none of whose lines starts with the fence holds no block:
    the extractor returns no artifact. *)
Theorem no_fence_no_artifact (output : string) :
  proseLines (strings.Split output strings.LF) ->
  ParseArtifacts output = [].
Proof.
  intros H. unfold ParseArtifacts. now rewrite scanLines_prose.
Qed.

Lemma no_fence_no_artifact_witness :
  ParseArtifacts "" = [] /\
  ParseArtifacts "Here is the design.
It has no code.
 ```go" = [].
Proof.
  split; apply no_fence_no_artifact; apply proseLines_check; vm_compute; reflexivity.
Defined.

Lemma scanLine_artifacts (st : scan) (line : string) :
  exists more, artifacts (scanLine st line) = artifacts st ++ more.
Proof.
  destruct (scanLine_cases st line) as [(_ & _ & ->) | [(_ & _ & ->) | [(_ & _ & ->) | (_ & _ & ->)]]];
    simpl; eauto; exists []; now rewrite app_nil_r.
Qed.

Lemma scanLines_artifacts (lines : list string) (st : scan) :
  exists more, artifacts (scanLines st lines) = artifacts st ++ more.
Proof.
  revert st. induction lines as [|line lines IH]; intros st.
  - exists []. simpl. now rewrite app_nil_r.
  - rewrite scanLines_cons.
    destruct (IH (scanLine st line)) as [m2 ->].
    destruct (scanLine_artifacts st line) as [m1 ->].
    exists (m1 ++ m2). now rewrite app_assoc.
Qed.

(** X2: text added after a line feed never removes or changes an artifact
    already extracted: the artifacts of the longer text start with the
    artifacts of the shorter one. *)
Theorem artifacts_only_grow (a b : string) :
  exists more,
    ParseArtifacts (a +:+ strings.newline +:+ b) = ParseArtifacts a ++ more.
Proof.
  unfold ParseArtifacts. rewrite Split_text, scanLines_app.
  apply scanLines_artifacts.
Qed.

Lemma scanLine_shifted (front : list Artifact) (st1 st2 : scan) (line : string) :
  shifted front st1 st2 ->
  shifted front (scanLine st1 line) (scanLine st2 line).
Proof.
  intros (Hin & Hfields & Harts). unfold scanLine. rewrite Hin.
  destruct (inBlock st2) eqn:E2.
  - destruct (Hfields Hin) as (Hl & Hf & Hb).
    rewrite andb_false_r, andb_true_r.
    destruct (String.eqb line fence); unfold shifted; simpl.
    + rewrite Hl, Hf, Hb, Harts.
      split; [reflexivity |]. split; [discriminate |]. now rewrite app_assoc.
    + now rewrite Hl, Hf, Hb, Harts.
  - rewrite andb_true_r, andb_false_r.
    destruct (strings.HasPrefix line fence); unfold shifted; simpl.
    + now rewrite Harts.
    + split; [congruence |]. split; [congruence | exact Harts].
Qed.

Lemma scanLines_shifted (front : list Artifact) (lines : list string) (st1 st2 : scan) :
  shifted front st1 st2 ->
  shifted front (scanLines st1 lines) (scanLines st2 lines).
Proof.
  revert st1 st2. induction lines as [|line lines IH]; intros st1 st2 H; [exact H |].
  rewrite !scanLines_cons. now apply IH, scanLine_shifted.
Qed.

Lemma scanLines_outside_start (st : scan) (lines : list string) :
  inBlock st = false ->
  artifacts (scanLines st lines) =
    artifacts st ++ artifacts (scanLines scanStart lines) /\
  inBlock (scanLines st lines) = inBlock (scanLines scanStart lines).
Proof.
  intros Hin.
  assert (H : shifted (artifacts st) st scanStart).
  { unfold shifted. rewrite Hin. simpl.
    split; [reflexivity |]. split; [discriminate |]. now rewrite app_nil_r. }
  apply (scanLines_shifted _ lines) in H. destruct H as (H1 & _ & H3). auto.
Qed.

(** X3: when the text [a] ends outside of any block, the artifacts of [a],
    a line feed and [b] are the artifacts of [a] followed by the artifacts
    of [b]. *)
Theorem artifacts_of_joined_texts (a b : string) :
  inBlock (scanLines scanStart (strings.Split a strings.LF)) = false ->
  ParseArtifacts (a +:+ strings.newline +:+ b) =
    ParseArtifacts a ++ ParseArtifacts b.
Proof.
  intros Hin. unfold ParseArtifacts. rewrite Split_text, scanLines_app.
  now destruct (scanLines_outside_start _ (strings.Split b strings.LF) Hin).
Qed.

Lemma artifacts_of_joined_texts_witness :
  ParseArtifacts ("```go
package a
```
and the schema:" +:+ strings.newline +:+ "```sql
select 1;
```") =
  [ {| Filename := ""; Content := "package a"; Language := "go" |};
    {| Filename := ""; Content := "select 1;"; Language := "sql" |} ].
Proof.
  rewrite artifacts_of_joined_texts by reflexivity. reflexivity.
Defined.

Lemma bareFences_snoc (lines : list string) (line : string) :
  bareFences (lines ++ [line]) =
  bareFences lines + (if String.eqb line fence then 1 else 0).
Proof.
  unfold bareFences. rewrite List.filter_app, length_app. simpl.
  now destruct (String.eqb line fence).
Qed.

Lemma fencedLines_snoc (lines : list string) (line : string) :
  fencedLines (lines ++ [line]) =
  fencedLines lines + (if strings.HasPrefix line fence then 1 else 0).
Proof.
  unfold fencedLines. rewrite List.filter_app, length_app. simpl.
  now destruct (strings.HasPrefix line fence).
Qed.

(** X4: every artifact takes a line that opens its block and a bare fence
    that closes it: there are at most as many artifacts as bare fence
    lines, and at most half as many as lines starting with the fence. *)
Theorem artifacts_bounded_by_fences (output : string) :
  length (ParseArtifacts output) <= bareFences (strings.Split output strings.LF) /\
  2 * length (ParseArtifacts output) <= fencedLines (strings.Split output strings.LF).
Proof.
  unfold ParseArtifacts.
  generalize (strings.Split output strings.LF) as lines. intros lines.
  assert (H : length (artifacts (scanLines scanStart lines)) <= bareFences lines /\
              2 * length (artifacts (scanLines scanStart lines))
                + (if inBlock (scanLines scanStart lines) then 1 else 0)
              <= fencedLines lines).
  { induction lines as [|line lines IH] using rev_ind.
    - simpl. unfold bareFences, fencedLines. simpl. lia.
    - rewrite scanLines_snoc, bareFences_snoc, fencedLines_snoc.
      destruct IH as [IH1 IH2].
      destruct (scanLine_cases (scanLines scanStart lines) line)
        as [(Hin & Hp & ->) | [(Hin & -> & ->) | [(Hin & Hne & ->) | (Hin & Hp & ->)]]];
        simpl; rewrite ?length_app; simpl; rewrite Hin in IH2.
      + rewrite Hp. destruct (String.eqb line fence); lia.
      + change (String.eqb fence fence) with true.
        change (strings.HasPrefix fence fence) with true. lia.
      + apply String.eqb_neq in Hne. rewrite Hne.
        destruct (strings.HasPrefix line fence); lia.
      + rewrite Hin, Hp. destruct (String.eqb line fence); lia. }
  destruct H as [H1 H2]. split; [exact H1 |].
  destruct (inBlock (scanLines scanStart lines)); lia.
Qed.

Lemma occurs_append (c : ascii) (a b : string) :
  occurs c (a +:+ b) <-> occurs c a \/ occurs c b.
Proof.
  induction a as [|x a IH]; sapp; simpl; [tauto |]. rewrite IH. tauto.
Qed.

Lemma occurs_drop (c : ascii) (n : nat) (s : string) :
  occurs c (strings.drop n s) -> occurs c s.
Proof.
  revert s. induction n as [|n IH]; intros [|x s]; simpl; auto.
Qed.

Lemma TrimPrefix_lineFree (line : string) :
  ~ occurs strings.LF line -> ~ occurs strings.LF (strings.TrimPrefix line fence).
Proof.
  intros H. unfold strings.TrimPrefix.
  destruct (strings.HasPrefix line fence); [|exact H].
  intros Hd. apply H. eapply occurs_drop, Hd.
Qed.

Lemma scanLine_kept (st : scan) (line : string) :
  kept st -> ~ occurs strings.LF line -> kept (scanLine st line).
Proof.
  intros [Hopen Harts] Hline.
  destruct (scanLine_cases st line)
    as [(Hin & Hp & ->) | [(Hin & -> & ->) | [(Hin & Hne & ->) | (Hin & Hp & ->)]]];
    unfold kept; simpl.
  - split; [|exact Harts]. intros _.
    split; [now apply TrimPrefix_lineFree |]. repeat split; constructor.
  - split; [discriminate |].
    destruct (Hopen Hin) as (Hl & Hfree & Hbody & Hf).
    apply Forall_app. split; [exact Harts |]. constructor; [|constructor].
    exists (blockLines st). unfold madeOf. simpl. auto.
  - split; [|exact Harts]. intros _.
    destruct (Hopen Hin) as (Hl & Hfree & Hbody & Hf).
    split; [exact Hl |]. unfold lineFree.
    split; [apply Forall_app; split; [exact Hfree | now constructor] |].
    split; [apply Forall_app; split; [exact Hbody | now constructor] |].
    rewrite fold_left_app. simpl. now rewrite Hf.
  - split; assumption.
Qed.

Lemma scanLines_kept (lines : list string) (st : scan) :
  kept st -> lineFree lines -> kept (scanLines st lines).
Proof.
  revert st. induction lines as [|line lines IH]; intros st Hk Hfree; [exact Hk |].
  inversion Hfree; subst. rewrite scanLines_cons.
  apply IH; [now apply scanLine_kept | assumption].
Qed.

Lemma ParseArtifacts_madeOf (output : string) (art : Artifact) :
  In art (ParseArtifacts output) -> exists body, madeOf art body.
Proof.
  intros Hin.
  assert (Hk : kept (scanLines scanStart (strings.Split output strings.LF))).
  { apply scanLines_kept; [|apply Split_no_sep].
    split; [discriminate | constructor]. }
  destruct Hk as [_ Harts]. rewrite List.Forall_forall in Harts. now apply Harts.
Qed.

(** Outside of a block, the lines of a block emit its artifact. *)
Lemma scanLines_block (st : scan) (language : string) (body : list string) :
  inBlock st = false ->
  Forall (fun line => line <> fence) body ->
  scanLines st ((fence +:+ language) :: body ++ [fence]) =
    {| inBlock := false; lang := language;
       filename := fold_left hintFilename body "";
       blockLines := body;
       artifacts := artifacts st ++
         [ {| Filename := fold_left hintFilename body "";
              Content := strings.Join body strings.newline;
              Language := language |} ] |}.
Proof.
  intros Hin Hbody.
  rewrite scanLines_cons, scanLine_open by (auto using HasPrefix_app).
  rewrite TrimPrefix_app, scanLines_app.
  rewrite (scanLines_inside body); [|reflexivity | assumption].
  change (scanLines ?s [fence]) with (scanLine s fence).
  now rewrite scanLine_close.
Qed.

Lemma Split_rendered (language content : string) :
  ~ occurs strings.LF language ->
  strings.Split
    (fence +:+ language +:+ strings.newline +:+ content +:+ strings.newline +:+ fence)
    strings.LF =
  (fence +:+ language) :: strings.Split content strings.LF ++ [fence].
Proof.
  intros Hl. rewrite <- (append_assoc fence language).
  rewrite Split_text, Split_text.
  rewrite (Split_last (fence +:+ language)); [reflexivity |].
  rewrite occurs_append. intros [Hf | Hf]; [|tauto].
  simpl in Hf. repeat (destruct Hf as [Hf | Hf]; [discriminate |]). exact Hf.
Qed.

(** X5: an artifact the extractor returned, written back as a fenced block
    with its language tag and its content, is extracted again as the same
    artifact, filename included. *)
Theorem rendered_artifact_round_trip (output : string) (art : Artifact) :
  In art (ParseArtifacts output) ->
  ParseArtifacts (rendered art) = [art].
Proof.
  intros Hin. destruct (ParseArtifacts_madeOf _ _ Hin) as [body Hm].
  destruct Hm as (Hfree & Hbody & Hl & Hc & Hf).
  unfold ParseArtifacts, rendered. rewrite Split_rendered by exact Hl.
  destruct art as [f c l]. cbn [Language Content Filename] in *. subst c f.
  destruct body as [|line body].
  - change (strings.Split (strings.Join [] strings.newline) strings.LF) with [""].
    rewrite (scanLines_block scanStart l [""]); [reflexivity | reflexivity |].
    repeat constructor. discriminate.
  - rewrite Split_Join by (discriminate || exact Hfree).
    now rewrite (scanLines_block scanStart l (line :: body)).
Qed.

Lemma rendered_artifact_round_trip_witness :
  ParseArtifacts
    (rendered {| Filename := "main.go";
                 Content := "// file: main.go
package main";
                 Language := "go" |}) =
  [ {| Filename := "main.go";
       Content := "// file: main.go
package main";
       Language := "go" |} ].
Proof.
  apply (rendered_artifact_round_trip threeBlocks).
  left. reflexivity.
Defined.

Lemma lineFree_blockText (b : block) : closedBlock b -> lineFree (blockText b).
Proof.
  intros (Hl & Hfree & _). unfold blockText, lineFree.
  constructor.
  - rewrite occurs_append. intros [Hf | Hf]; [|tauto].
    simpl in Hf. repeat (destruct Hf as [Hf | Hf]; [discriminate |]). exact Hf.
  - apply Forall_app. split; [exact Hfree |]. constructor; [|constructor].
    simpl. intros Hf. repeat (destruct Hf as [Hf | Hf]; [discriminate |]). exact Hf.
Qed.

Lemma lineFree_reply (segments : list (list string * block)) (closing : list string) :
  wellFormed segments closing -> lineFree (reply segments closing).
Proof.
  intros (Hsegs & Hclosing & _).
  induction Hsegs as [|[prose b] rest (Hp & _ & Hb) _ IH]; [exact Hclosing |].
  cbn [reply fst snd] in *. unfold lineFree in *.
  apply Forall_app. split; [exact Hp |].
  apply Forall_app. split; [now apply lineFree_blockText | exact IH].
Qed.

Lemma scanLines_blockText (st : scan) (b : block) :
  inBlock st = false ->
  Forall (fun line => line <> fence) (blockBody b) ->
  inBlock (scanLines st (blockText b)) = false /\
  artifacts (scanLines st (blockText b)) = artifacts st ++ [blockArtifact b].
Proof.
  intros Hin Hbody. unfold blockText.
  now rewrite (scanLines_block st (blockLang b) (blockBody b)).
Qed.

Lemma scanLines_reply (segments : list (list string * block)) (closing : list string)
    (st : scan) :
  wellFormed segments closing ->
  inBlock st = false ->
  artifacts (scanLines st (reply segments closing)) =
    artifacts st ++ map (fun sb => blockArtifact (snd sb)) segments.
Proof.
  intros (Hsegs & _ & Hclosing). revert st.
  induction Hsegs as [|[prose b] rest (_ & Hp & Hb) _ IH]; intros st Hin.
  - simpl. rewrite scanLines_prose by assumption. now rewrite app_nil_r.
  - cbn [reply map fst snd] in *.
    rewrite scanLines_app, (scanLines_prose st prose) by assumption.
    rewrite scanLines_app.
    destruct Hb as (_ & _ & Hbody).
    destruct (scanLines_blockText st b Hin Hbody) as [Hout Harts].
    rewrite IH by exact Hout. rewrite Harts. now rewrite <- app_assoc.
Qed.

(** X6: a reply made of prose lines that do not start with the fence and of
    blocks closed by their last line is extracted as one artifact per
    block, in the order of the blocks, each with the language tag of its
    opening line, its body as content and the last hint of the body as
    filename. *)
Theorem reply_gives_one_artifact_per_block
    (segments : list (list string * block)) (closing : list string) :
  wellFormed segments closing ->
  ParseArtifacts (strings.Join (reply segments closing) strings.newline) =
    map (fun sb => blockArtifact (snd sb)) segments.
Proof.
  intros Hwf. unfold ParseArtifacts.
  destruct (reply segments closing) as [|line lines] eqn:E.
  - destruct segments as [|[prose b] rest]; [reflexivity |].
    cbn [reply] in E. apply app_eq_nil in E. destruct E as [_ E].
    unfold blockText in E. discriminate.
  - rewrite Split_Join; [| discriminate | rewrite <- E; now apply lineFree_reply].
    rewrite <- E. now rewrite scanLines_reply.
Qed.

Lemma reply_gives_one_artifact_per_block_witness :
  ParseArtifacts
    (strings.Join
       (reply [ (["The handler:"], {| blockLang := "go";
                                      blockBody := ["// file: handler.go"; "package api"] |});
                ([], {| blockLang := ""; blockBody := [] |}) ]
              ["Done."])
       strings.newline) =
  [ {| Filename := "handler.go";
       Content := "// file: handler.go
package api";
       Language := "go" |};
    {| Filename := ""; Content := ""; Language := "" |} ].
Proof.
  apply (reply_gives_one_artifact_per_block
           [ (["The handler:"], {| blockLang := "go";
                                   blockBody := ["// file: handler.go"; "package api"] |});
             ([], {| blockLang := ""; blockBody := [] |}) ]
           ["Done."]).
  unfold wellFormed, closedBlock, lineFree, proseLines. simpl.
  repeat (split || constructor); simpl; try discriminate; try reflexivity;
    intros H; repeat (destruct H as [H | H]; [discriminate |]); exact H.
Defined.

Lemma dash_hint_not_a_hint (name : string) : isHint ("-- file: " +:+ name) = false.
Proof. reflexivity. Qed.

Lemma ParseArtifacts_blockText (b : block) :
  closedBlock b ->
  ParseArtifacts (strings.Join (blockText b) strings.newline) = [blockArtifact b].
Proof.
  intros Hb. unfold ParseArtifacts.
  rewrite Split_Join; [| unfold blockText; discriminate | now apply lineFree_blockText].
  destruct Hb as (_ & _ & Hbody).
  now destruct (scanLines_blockText scanStart b eq_refl Hbody) as [_ ->].
Qed.

(** * Further properties of the agents *)

(** X7: the hint line with two dashes that the backend agents ask for in
    SQL blocks is not one of the two hint prefixes of the extractor: a
    reply that is one SQL block in the requested format, with no other
    hint in it, comes back with the default name [migration_1.sql] and
    not with the name given in the block. *)
Theorem sql_hint_is_not_recognised (s : stage) (a : BaseAgent) (req : request s)
    (agentContext : gmap string string) (res : AgentResult)
    (name : string) (statements : list string) :
  sqlStage s ->
  returned (Run s a req agentContext) = inl res ->
  Output res = strings.Join (blockText (sqlBlock name statements)) strings.newline ->
  ~ occurs strings.LF name ->
  lineFree statements ->
  Forall (fun line => line <> fence) statements ->
  Forall (fun line => isHint line = false) statements ->
  Artifacts res =
    [ {| Filename := "migration_1.sql";
         Content := strings.Join (("-- file: " +:+ name) :: statements) strings.newline;
         Language := "sql" |} ].
Proof.
  intros Hs Hrun Hout Hname Hfree Hbody Hnohint.
  destruct (Run_returned _ _ _ _ _ Hrun) as (_ & _ & ->).
  rewrite Hout, ParseArtifacts_blockText.
  - unfold blockArtifact, sqlBlock. cbn [blockBody blockLang fold_left].
    rewrite (hintFilename_other "" _ (dash_hint_not_a_hint name)).
    rewrite fold_hintFilename_other by exact Hnohint.
    destruct Hs as [-> | ->]; reflexivity.
  - unfold closedBlock, sqlBlock, lineFree. cbn [blockBody blockLang].
    split; [simpl; intros H; repeat (destruct H as [H | H]; [discriminate |]); exact H |].
    split; constructor; try assumption.
    + rewrite occurs_append. intros [H | H]; [|tauto].
      simpl in H. repeat (destruct H as [H | H]; [discriminate |]). exact H.
    + intros H. pose proof (dash_hint_not_a_hint name) as Hh.
      rewrite H in Hh. discriminate Hh || (vm_compute in Hh; discriminate).
Qed.

Lemma sql_hint_is_not_recognised_witness :
  returned (Run BackendDB sqlAgent ordersService ∅) = inl sqlResult /\
  Artifacts sqlResult =
    [ {| Filename := "migration_1.sql";
         Content := "-- file: 001_init.sql
create table products (id int);";
         Language := "sql" |} ].
Proof.
  assert (H : returned (Run BackendDB sqlAgent ordersService ∅) = inl sqlResult)
    by (vm_compute; reflexivity).
  split; [exact H |].
  apply (sql_hint_is_not_recognised BackendDB sqlAgent ordersService ∅ sqlResult
           "001_init.sql" ["create table products (id int);"]).
  - left. reflexivity.
  - exact H.
  - reflexivity.
  - simpl. intros Hf. repeat (destruct Hf as [Hf | Hf]; [discriminate |]). exact Hf.
  - constructor; [|constructor].
    simpl. intros Hf. repeat (destruct Hf as [Hf | Hf]; [discriminate |]). exact Hf.
  - constructor; [discriminate | constructor].
  - constructor; [reflexivity | constructor].
Defined.

Lemma append_cancel_r (a b c : string) : a +:+ c = b +:+ c -> a = b.
Proof.
  revert b. induction a as [|x a IH]; intros [|y b] H; sapp.
  - reflexivity.
  - apply (f_equal String.length) in H. simpl in H. rewrite length_append in H. lia.
  - apply (f_equal String.length) in H. simpl in H. rewrite length_append in H. lia.
  - injection H as -> H. f_equal. now apply IH.
Qed.

Lemma append_cancel_l (a b c : string) : a +:+ b = a +:+ c -> b = c.
Proof.
  induction a as [|x a IH]; sapp; intros H; [exact H |].
  injection H as H. auto.
Qed.

Lemma to_uint_nonnil (n : nat) : Nat.to_uint n <> Decimal.Nil.
Proof.
  intros H. pose proof (DecimalNat.Unsigned.of_to n) as Hn.
  rewrite H in Hn. simpl in Hn. subst n. discriminate H.
Qed.

Lemma itoa_inj (n m : nat) : itoa n = itoa m -> n = m.
Proof.
  unfold itoa. intros H.
  apply (f_equal NilZero.uint_of_string) in H.
  rewrite !NilZero.usu in H by apply to_uint_nonnil.
  injection H as H. now apply DecimalNat.Unsigned.to_uint_inj.
Qed.

(** The names an agent gives, spelled out. *)
Lemma namingOf_name (s : stage) (i : nat) (art : Artifact) (name : string) :
  namingOf s i art = Some name ->
  Filename art = "" /\
  (Language art = "go" /\ name = goFamily s +:+ "_" +:+ itoa (i + 1) +:+ ".go" \/
   sqlStage s /\ Language art = "sql" /\
     name = "migration_" +:+ itoa (i + 1) +:+ ".sql").
Proof.
  intros H. destruct (namingOf_Some _ _ _ _ H) as [Hf [Hgo | [Hs Hsql]]].
  - rewrite (namingOf_go s i art Hf Hgo) in H. injection H as <-. auto.
  - rewrite (namingOf_sql s i art Hs Hf Hsql) in H. injection H as <-. auto.
Qed.

Lemma namingOf_nonempty (s : stage) (i : nat) (art : Artifact) (name : string) :
  namingOf s i art = Some name -> name <> "".
Proof.
  intros H. destruct (namingOf_name _ _ _ _ H) as [_ [[_ ->] | (_ & _ & ->)]].
  - destruct s; discriminate.
  - discriminate.
Qed.

Lemma renamed_twice (s : stage) (i : nat) (art : Artifact) :
  renamed (namingOf s) i (renamed (namingOf s) i art) = renamed (namingOf s) i art.
Proof.
  unfold renamed at 2 3.
  destruct (namingOf s i art) as [name|] eqn:E.
  - unfold renamed. rewrite namingOf_None; [reflexivity |].
    left. simpl. eapply namingOf_nonempty, E.
  - unfold renamed. now rewrite E.
Qed.

(** X8: the default-naming pass of an agent run a second time changes
    nothing: an artifact it named has a filename, and is left alone. *)
Theorem naming_pass_idempotent (s : stage) (arts : list Artifact) :
  nameLoop (namingOf s) (nameLoop (namingOf s) arts) = nameLoop (namingOf s) arts.
Proof.
  apply list_eq. intros i. rewrite !nameLoop_lookup.
  destruct (arts !! i) as [art|]; simpl; [|reflexivity].
  now rewrite renamed_twice.
Qed.

(** X9: in the result of a run, no artifact whose language the agent has
    a default name for is left without a filename: every artifact tagged
    ["go"], and for the backend agents every artifact tagged ["sql"], has
    a filename that is not empty. *)
Theorem mapped_artifacts_are_named (s : stage) (a : BaseAgent) (req : request s)
    (agentContext : gmap string string) (res : AgentResult)
    (i : nat) (art : Artifact) :
  returned (Run s a req agentContext) = inl res ->
  Artifacts res !! i = Some art ->
  mapped s (Language art) ->
  Filename art <> "".
Proof.
  intros Hrun Hi Hm.
  destruct (Run_returned _ _ _ _ _ Hrun) as (_ & _ & Harts).
  rewrite Harts, nameLoop_lookup in Hi.
  destruct (ParseArtifacts (Output res) !! i) as [art0|]; [|discriminate].
  injection Hi as <-. unfold renamed in *.
  destruct (namingOf s i art0) as [name|] eqn:E; simpl in *.
  - eapply namingOf_nonempty, E.
  - intros Hf.
    destruct Hm as [Hgo | [Hs Hsql]].
    + rewrite (namingOf_go s i art0 Hf Hgo) in E. discriminate.
    + rewrite (namingOf_sql s i art0 Hs Hf Hsql) in E. discriminate.
Qed.

Lemma mapped_artifacts_are_named_witness :
  Filename {| Filename := "api_2.go"; Content := "package api"; Language := "go" |}
    <> "".
Proof.
  apply (mapped_artifacts_are_named APIDesign exampleAgent ordersService ∅
           exampleResult 1).
  - vm_compute. reflexivity.
  - reflexivity.
  - left. reflexivity.
Defined.

Lemma default_names_differ (s : stage) (i j : nat) (art1 art2 : Artifact)
    (name1 name2 : string) :
  namingOf s i art1 = Some name1 ->
  namingOf s j art2 = Some name2 ->
  i <> j -> name1 <> name2.
Proof.
  intros H1 H2 Hij Heq. subst name2.
  destruct (namingOf_name _ _ _ _ H1) as [_ [[_ E1] | (Hs1 & _ & E1)]];
    destruct (namingOf_name _ _ _ _ H2) as [_ [[_ E2] | (Hs2 & _ & E2)]];
    rewrite E1 in E2.
  - apply append_cancel_l, append_cancel_l in E2.
    apply append_cancel_r, itoa_inj in E2. lia.
  - destruct Hs2 as [-> | ->]; discriminate.
  - destruct Hs1 as [-> | ->]; discriminate.
  - apply append_cancel_l in E2.
    apply append_cancel_r, itoa_inj in E2. lia.
Qed.

(** X10: the default names of one run do not collide with each other: two
    artifacts extracted at different positions, both without a filename
    and both of a language the agent names, get different filenames. *)
Theorem default_names_are_distinct (s : stage) (a : BaseAgent) (req : request s)
    (agentContext : gmap string string) (res : AgentResult)
    (i j : nat) (art1 art2 named1 named2 : Artifact) :
  returned (Run s a req agentContext) = inl res ->
  i <> j ->
  ParseArtifacts (Output res) !! i = Some art1 ->
  ParseArtifacts (Output res) !! j = Some art2 ->
  Filename art1 = "" -> mapped s (Language art1) ->
  Filename art2 = "" -> mapped s (Language art2) ->
  Artifacts res !! i = Some named1 ->
  Artifacts res !! j = Some named2 ->
  Filename named1 <> Filename named2.
Proof.
  intros Hrun Hij Hi Hj Hf1 Hm1 Hf2 Hm2 Hn1 Hn2.
  destruct (Run_returned _ _ _ _ _ Hrun) as (_ & _ & Harts).
  rewrite Harts, nameLoop_lookup, Hi in Hn1.
  rewrite Harts, nameLoop_lookup, Hj in Hn2.
  injection Hn1 as <-. injection Hn2 as <-. unfold renamed.
  assert (E1 : exists name1, namingOf s i art1 = Some name1).
  { destruct Hm1 as [Hgo | [Hs Hsql]];
      [rewrite (namingOf_go s i art1 Hf1 Hgo) | rewrite (namingOf_sql s i art1 Hs Hf1 Hsql)];
      eauto. }
  assert (E2 : exists name2, namingOf s j art2 = Some name2).
  { destruct Hm2 as [Hgo | [Hs Hsql]];
      [rewrite (namingOf_go s j art2 Hf2 Hgo) | rewrite (namingOf_sql s j art2 Hs Hf2 Hsql)];
      eauto. }
  destruct E1 as [name1 E1]. destruct E2 as [name2 E2].
  rewrite E1, E2. simpl. eapply default_names_differ; eauto.
Qed.

Lemma default_names_are_distinct_witness :
  returned (Run BackendDB twoBlocksAgent ordersService ∅) = inl twoBlocksResult /\
  "service_1.go" <> "migration_2.sql".
Proof.
  assert (H : returned (Run BackendDB twoBlocksAgent ordersService ∅)
              = inl twoBlocksResult) by (vm_compute; reflexivity).
  split; [exact H |].
  apply (default_names_are_distinct BackendDB twoBlocksAgent ordersService ∅
           twoBlocksResult 0 1
           {| Filename := ""; Content := "package store"; Language := "go" |}
           {| Filename := "";
              Content := "create table products (id int);";
              Language := "sql" |}
           {| Filename := "service_1.go"; Content := "package store"; Language := "go" |}
           {| Filename := "migration_2.sql";
              Content := "create table products (id int);";
              Language := "sql" |} H).
  - discriminate.
  - reflexivity.
  - reflexivity.
  - reflexivity.
  - left. reflexivity.
  - reflexivity.
  - right. split; [left |]; reflexivity.
  - reflexivity.
  - reflexivity.
Defined.

Lemma Chat_failed (b : BaseAgent) (messages : list MessageParam) (e0 : error) :
  client b (chatParams b messages) = inr e0 ->
  Chat b messages = ("", Some (Errorf "claude API error: " e0)).
Proof. intros H. unfold Chat. fold (chatParams b messages). now rewrite H. Qed.

Lemma fold_text (content : list ContentBlock) (sb : string) :
  fold_left
    (fun sb block =>
       if String.eqb (Type_ block) "text" then sb +:+ Text block else sb)
    content sb = sb +:+ textOf content.
Proof.
  unfold textOf. revert sb.
  induction content as [|block content IH]; intros sb; simpl.
  - now rewrite append_empty_r.
  - rewrite IH. destruct (String.eqb (Type_ block) "text"); [|reflexivity].
    cbn [map]. now rewrite concat_empty_cons, append_assoc.
Qed.

Lemma Chat_text (b : BaseAgent) (messages : list MessageParam)
    (content : list ContentBlock) :
  client b (chatParams b messages) = inl content ->
  Chat b messages = (textOf content, None).
Proof.
  intros H. unfold Chat. fold (chatParams b messages). rewrite H.
  now rewrite fold_text.
Qed.

(** X11: the text [Chat] returns for a reply is the text of its blocks of
    type ["text"], in the order of the reply; blocks of any other type
    add nothing, and no error is returned. *)
Theorem Chat_returns_text_blocks (b : BaseAgent) (messages : list MessageParam)
    (content : list ContentBlock) :
  client b (chatParams b messages) = inl content ->
  Chat b messages = (textOf content, None).
Proof.
  apply Chat_text.
Qed.

Lemma Chat_returns_text_blocks_witness :
  Chat mixedAgent [NewUserMessage "task"] = ("ab", None).
Proof.
  exact (Chat_returns_text_blocks mixedAgent [NewUserMessage "task"]
           mixedContent eq_refl).
Defined.

Lemma Run_failed (s : stage) (a : BaseAgent) (req : request s)
    (agentContext : gmap string string) (partial : string) (e : error) :
  Chat a [NewUserMessage (prompt s req agentContext)] = (partial, Some e) ->
  returned (Run s a req agentContext) = inr (failed (Name a) e).
Proof.
  intros Hchat.
  assert (Hc : forall rule,
    returned (chatAndExtract a (prompt s req agentContext) rule) =
    inr (failed (Name a) e)).
  { intros rule. unfold chatAndExtract. now rewrite Hchat. }
  destruct s; apply Hc.
Qed.

(** X12: when the service fails with [e0], the error a [Run] returns is
    two wraps around [e0]: its message is the name of the agent in
    brackets, ["failed: claude API error: "] and the message of [e0], and
    unwrapping it twice gives [e0]; no result is returned. *)
Theorem service_error_chain (s : stage) (a : BaseAgent) (req : request s)
    (agentContext : gmap string string) (e0 : error) :
  client a (chatParams a [NewUserMessage (prompt s req agentContext)]) = inr e0 ->
  result (Run s a req agentContext) = None /\
  exists e e1,
    err (Run s a req agentContext) = Some e /\
    Error e = "[" +:+ Name a +:+ "] failed: claude API error: " +:+ Error e0 /\
    Unwrap e = Some e1 /\
    Error e1 = "claude API error: " +:+ Error e0 /\
    Unwrap e1 = Some e0.
Proof.
  intros H. apply Chat_failed in H. apply Run_failed in H.
  unfold result, err. rewrite H.
  split; [reflexivity |].
  eexists _, _. split; [reflexivity |].
  split; [| split; [reflexivity | split; reflexivity]].
  unfold failed, Errorf. cbn [Error].
  now rewrite !append_assoc.
Qed.

Lemma service_error_chain_witness :
  result (Run APIDesign failingAgent ordersService ∅) = None /\
  exists e e1,
    err (Run APIDesign failingAgent ordersService ∅) = Some e /\
    Error e = "[" +:+ Name failingAgent +:+ "] failed: claude API error: "
              +:+ Error (errorNew "connection refused") /\
    Unwrap e = Some e1 /\
    Error e1 = "claude API error: " +:+ Error (errorNew "connection refused") /\
    Unwrap e1 = Some (errorNew "connection refused").
Proof.
  apply (service_error_chain APIDesign failingAgent ordersService ∅
           (errorNew "connection refused")).
  reflexivity.
Defined.

Lemma textOf_no_text (content : list ContentBlock) :
  Forall (fun block => Type_ block <> "text") content -> textOf content = "".
Proof.
  intros H. unfold textOf.
  induction H as [|block content Hb _ IH]; [reflexivity |].
  simpl. apply String.eqb_neq in Hb. now rewrite Hb.
Qed.

(** X13: a reply without any text block is not an error: the [Run]
    returns a result with the name of the agent, an empty output and no
    artifact. *)
Theorem empty_reply_gives_empty_result (s : stage) (a : BaseAgent) (req : request s)
    (agentContext : gmap string string) (content : list ContentBlock) :
  client a (chatParams a [NewUserMessage (prompt s req agentContext)]) = inl content ->
  Forall (fun block => Type_ block <> "text") content ->
  returned (Run s a req agentContext) =
    inl {| AgentName := Name a; Output := ""; Artifacts := []; Error_ := None |}.
Proof.
  intros H Hno. apply Chat_text in H.
  rewrite textOf_no_text in H by exact Hno.
  assert (Hc : forall rule,
    returned (chatAndExtract a (prompt s req agentContext) rule) =
    inl {| AgentName := Name a; Output := ""; Artifacts := []; Error_ := None |}).
  { intros rule. unfold chatAndExtract. now rewrite H. }
  destruct s; apply Hc.
Qed.

Lemma empty_reply_gives_empty_result_witness :
  returned (Run Messaging toolOnlyAgent ordersService ∅) =
    inl {| AgentName := "Messaging & Events Agent"; Output := "";
           Artifacts := []; Error_ := None |}.
Proof.
  apply (empty_reply_gives_empty_result Messaging toolOnlyAgent ordersService ∅
           [ {| Type_ := "tool_use"; Text := "ignored" |} ]).
  - reflexivity.
  - constructor; [discriminate | constructor].
Defined.

Lemma withContext_agree (p key label : string) (c1 c2 : gmap string string) :
  c1 !! key = c2 !! key -> withContext p c1 key label = withContext p c2 key label.
Proof. intros H. unfold withContext. now rewrite H. Qed.

Lemma withSection_agree (sections : list string) (key label : string)
    (c1 c2 : gmap string string) :
  c1 !! key = c2 !! key ->
  inventory.withSection sections c1 key label = inventory.withSection sections c2 key label.
Proof. intros H. unfold inventory.withSection. now rewrite H. Qed.

Lemma prompt_agree (s : stage) (req : request s) (c1 c2 : gmap string string) :
  (forall key, In key (reads s) -> c1 !! key = c2 !! key) ->
  prompt s req c1 = prompt s req c2.
Proof.
  intros H.
  destruct s; cbn [prompt reads] in *;
    unfold APIDesignAgent_prompt, BackendDBAgent_prompt, MessagingAgent_prompt,
      TestingSecurityAgent_prompt, inventory.BackendDBAgent_prompt,
      inventory.MessagingAgent_prompt, inventory.TestingSecurityAgent_prompt;
    cbv zeta;
    repeat first
      [ rewrite (withContext_agree _ "project_context" _ c1 c2) by (apply H; simpl; auto)
      | rewrite (withContext_agree _ "api_design" _ c1 c2) by (apply H; simpl; auto)
      | rewrite (withContext_agree _ "backend_db" _ c1 c2) by (apply H; simpl; auto)
      | rewrite (withSection_agree _ "api_design" _ c1 c2) by (apply H; simpl; auto)
      | rewrite (withSection_agree _ "backend_db" _ c1 c2) by (apply H; simpl; auto) ];
    reflexivity.
Qed.

(** X14: a [Run] depends on the context only through the keys its agent
    reads: two contexts that agree on these keys, whatever else they hold
    or lack, give the same prompt, the same calls and the same result. *)
Theorem run_reads_only_its_keys (s : stage) (a : BaseAgent) (req : request s)
    (c1 c2 : gmap string string) :
  (forall key, In key (reads s) -> c1 !! key = c2 !! key) ->
  prompt s req c1 = prompt s req c2 /\
  Run s a req c1 = Run s a req c2.
Proof.
  intros H. pose proof (prompt_agree s req c1 c2 H) as Hp.
  split; [exact Hp |].
  assert (Hc : forall rule,
    chatAndExtract a (prompt s req c1) rule = chatAndExtract a (prompt s req c2) rule)
    by (intros rule; now rewrite Hp).
  destruct s; apply Hc.
Qed.

Lemma run_reads_only_its_keys_witness :
  prompt Messaging ordersService (<["api_design" := "routes"]> ∅) =
    prompt Messaging ordersService ∅ /\
  Run Messaging toolOnlyAgent ordersService (<["api_design" := "routes"]> ∅) =
    Run Messaging toolOnlyAgent ordersService ∅.
Proof.
  apply (run_reads_only_its_keys Messaging toolOnlyAgent ordersService
           (<["api_design" := "routes"]> ∅) ∅).
  intros key [<- | []]. vm_compute. reflexivity.
Defined.

(** * Properties of the configuration *)

Lemma Atoi_range (s : string) (n : Z) :
  strconv.Atoi s = Some n -> (strconv.minInt <= n <= strconv.maxInt)%Z.
Proof.
  unfold strconv.Atoi. destruct s as [|c rest]; [discriminate |].
  destruct (if Ascii.eqb c "-" || Ascii.eqb c "+" then rest else String c rest);
    [discriminate |].
  destruct (strconv.digits _ 0); [|discriminate].
  destruct (_ && _) eqn:E; [|discriminate].
  intros [= <-]. apply andb_true_iff in E. lia.
Qed.

(** X15: whatever the environment holds, the configuration [Load] returns
    has a model that is not empty and a token limit that is positive and
    fits an [int]; the key is the value of [ANTHROPIC_API_KEY] as it is,
    empty when the variable is not set. *)
Theorem Load_always_usable (env : gmap string string) :
  config.Model (Load env) <> "" /\
  (0 < config.MaxTokens (Load env) <= strconv.maxInt)%Z /\
  config.AnthropicAPIKey (Load env) = default "" (env !! "ANTHROPIC_API_KEY").
Proof.
  unfold Load. cbn [config.Model config.MaxTokens config.AnthropicAPIKey].
  split; [| split; [| reflexivity]].
  - destruct (String.eqb_spec (os.Getenv env "CLAUDE_MODEL") ""); [discriminate | assumption].
  - destruct (negb _); [| vm_compute; split; [reflexivity | discriminate]].
    destruct (strconv.Atoi _) as [n|] eqn:E;
      [| vm_compute; split; [reflexivity | discriminate]].
    destruct (0 <? n)%Z eqn:Hn;
      [| vm_compute; split; [reflexivity | discriminate]].
    apply Atoi_range in E. apply Z.ltb_lt in Hn. lia.
Qed.

Lemma digits_of_uint (d : Decimal.uint) (acc : nat) :
  strconv.digits (NilEmpty.string_of_uint d) (Z.of_nat acc) =
  Some (Z.of_nat (Nat.of_uint_acc d acc)).
Proof.
  revert acc. induction d; intros acc; [reflexivity | ..];
    cbn [NilEmpty.string_of_uint strconv.digits Nat.of_uint_acc];
    (match goal with
     | |- context [strconv.digitValue ?c] =>
         let v := eval vm_compute in (strconv.digitValue c) in
         change (strconv.digitValue c) with v
     end);
    cbv iota; rewrite <- IHd; f_equal; rewrite Nat.tail_mul_spec; lia.
Qed.

Lemma itoa_digits (n : nat) :
  exists c rest,
    itoa n = String c rest /\
    Ascii.eqb c "-" || Ascii.eqb c "+" = false /\
    strconv.digits (itoa n) 0 = Some (Z.of_nat n).
Proof.
  unfold itoa. pose proof (to_uint_nonnil n) as Hnil.
  pose proof (DecimalNat.Unsigned.of_to n) as Hof.
  pose proof (digits_of_uint (Nat.to_uint n) 0) as Hd.
  change (Nat.of_uint_acc (Nat.to_uint n) 0) with (Nat.of_uint (Nat.to_uint n)) in Hd.
  rewrite Hof in Hd.
  destruct (Nat.to_uint n); [congruence | ..];
    eexists _, _; (split; [reflexivity |]); (split; [reflexivity | exact Hd]).
Qed.

Lemma Atoi_itoa (n : nat) :
  (Z.of_nat n <= strconv.maxInt)%Z -> strconv.Atoi (itoa n) = Some (Z.of_nat n).
Proof.
  intros Hmax. destruct (itoa_digits n) as (c & rest & E & Hsign & Hd).
  unfold strconv.Atoi. rewrite E in *. rewrite Hsign, Hd.
  apply orb_false_iff in Hsign. destruct Hsign as [Hminus _]. rewrite Hminus.
  assert (Hr : ((strconv.minInt <=? Z.of_nat n) && (Z.of_nat n <=? strconv.maxInt))%Z = true).
  { apply andb_true_iff. split; [apply Z.leb_le | apply Z.leb_le]; [|exact Hmax].
    unfold strconv.minInt. lia. }
  now rewrite Hr.
Qed.

(** X16: a positive number that fits an [int], written in decimal in
    [CLAUDE_MAX_TOKENS], is the token limit of the configuration. *)
Theorem Load_reads_max_tokens (env : gmap string string) (n : nat) :
  env !! "CLAUDE_MAX_TOKENS" = Some (itoa n) ->
  0 < n ->
  (Z.of_nat n <= strconv.maxInt)%Z ->
  config.MaxTokens (Load env) = Z.of_nat n.
Proof.
  intros Henv Hpos Hmax. unfold Load, os.Getenv.
  cbn [config.MaxTokens]. rewrite Henv. cbn [from_option id].
  destruct (itoa_digits n) as (c & rest & E & _).
  rewrite Atoi_itoa by exact Hmax.
  rewrite E at 1. cbn [String.eqb negb].
  assert (H : (0 <? Z.of_nat n)%Z = true) by (apply Z.ltb_lt; lia).
  now rewrite H.
Qed.

Lemma Load_reads_max_tokens_witness :
  config.MaxTokens (Load (<["CLAUDE_MAX_TOKENS" := "4096"]> ∅)) = 4096%Z.
Proof.
  apply (Load_reads_max_tokens (<["CLAUDE_MAX_TOKENS" := "4096"]> ∅) 4096).
  - vm_compute. reflexivity.
  - lia.
  - vm_compute. discriminate.
Defined.

Lemma digits_bad (before after : string) (c : ascii) (n : Z) :
  strconv.digitValue c = None ->
  strconv.digits (before +:+ String c after) n = None.
Proof.
  intros Hc. revert n. induction before as [|x before IH]; intros n; sapp; simpl.
  - now rewrite Hc.
  - destruct (strconv.digitValue x); [apply IH | reflexivity].
Qed.

Lemma Atoi_bad (before after : string) (c : ascii) :
  strconv.digitValue c = None ->
  (before = "" -> c <> "-"%char /\ c <> "+"%char) ->
  strconv.Atoi (before +:+ String c after) = None.
Proof.
  intros Hc Hfirst. unfold strconv.Atoi.
  destruct before as [|x before]; sapp.
  - destruct (Hfirst eq_refl) as [Hm Hp].
    apply Ascii.eqb_neq in Hm, Hp. rewrite Hm, Hp. simpl. now rewrite Hc.
  - destruct (Ascii.eqb x "-" || Ascii.eqb x "+").
    + destruct before as [|y before]; sapp.
      * simpl. now rewrite Hc.
      * rewrite <- append_cons. now rewrite digits_bad.
    + rewrite <- append_cons. now rewrite digits_bad.
Qed.

(** X17: a value of [CLAUDE_MAX_TOKENS] that holds a byte that is not a
    decimal digit, other than a sign in front, is not an error: [Load]
    falls back to the default limit of 8192 tokens. *)
Theorem Load_ignores_malformed_max_tokens (env : gmap string string)
    (before after : string) (c : ascii) :
  env !! "CLAUDE_MAX_TOKENS" = Some (before +:+ String c after) ->
  strconv.digitValue c = None ->
  (before = "" -> c <> "-"%char /\ c <> "+"%char) ->
  config.MaxTokens (Load env) = 8192%Z.
Proof.
  intros Henv Hc Hfirst. unfold Load, os.Getenv.
  cbn [config.MaxTokens]. rewrite Henv. cbn [from_option id].
  rewrite Atoi_bad by assumption.
  now destruct (negb _).
Qed.

Lemma Load_ignores_malformed_max_tokens_witness :
  config.MaxTokens (Load (<["CLAUDE_MAX_TOKENS" := "8k"]> ∅)) = 8192%Z /\
  config.MaxTokens (Load (<["CLAUDE_MAX_TOKENS" := "4096 "]> ∅)) = 8192%Z.
Proof.
  split.
  - apply (Load_ignores_malformed_max_tokens _ "8" "" "k"%char);
      [vm_compute; reflexivity | reflexivity | discriminate].
  - apply (Load_ignores_malformed_max_tokens _ "4096" "" " "%char);
      [vm_compute; reflexivity | reflexivity | discriminate].
Defined.

(** * Further properties of the service definition *)

Lemma substring_of_trans (s t u : string) :
  substring_of s t -> substring_of t u -> substring_of s u.
Proof.
  intros (b1 & a1 & ->) (b2 & a2 & ->).
  exists (b2 +:+ b1), (a1 +:+ a2). now rewrite !append_assoc.
Qed.

Lemma substring_of_concat (x : string) (l : list string) :
  In x l -> substring_of x (String.concat "" l).
Proof.
  induction l as [|y l IH]; intros Hin; [destruct Hin |].
  rewrite concat_empty_cons. destruct Hin as [-> | Hin].
  - exists "", (String.concat "" l). reflexivity.
  - destruct (IH Hin) as (b & a & ->). exists (y +:+ b), a.
    now rewrite append_assoc.
Qed.

Lemma bullet_in_section (title item : string) (items : list string) :
  In item items -> substring_of (config.bullet item) (config.section title items).
Proof.
  intros Hin. unfold config.section.
  destruct items as [|first rest]; [destruct Hin |].
  apply (substring_of_trans _ (String.concat "" (map config.bullet (first :: rest)))).
  - apply substring_of_concat, in_map, Hin.
  - exists (title +:+ strings.newline), strings.newline.
    now rewrite !append_assoc.
Qed.

(** X18: nothing of the four sequences of a service definition is left
    out of its prompt: every entity, operation, integration and extra
    requirement is in the text as a bullet line of its own. *)
Theorem prompt_lists_every_item (s : config.ServiceDefinition) (item : string) :
  In item (config.Entities s) \/ In item (config.Operations s) \/
  In item (config.Integrations s) \/ In item (config.ExtraRequirements s) ->
  substring_of ("  - " +:+ item +:+ strings.newline) (config.Prompt s).
Proof.
  intros Hin. rewrite Prompt_by_sections. unfold config.PromptBySections.
  change ("  - " +:+ item +:+ strings.newline) with (config.bullet item).
  destruct Hin as [H | [H | [H | H]]];
    eapply substring_of_trans;
      [ apply bullet_in_section, H | apply substring_of_concat; simpl; tauto
      | apply bullet_in_section, H | apply substring_of_concat; simpl; tauto
      | apply bullet_in_section, H | apply substring_of_concat; simpl; tauto
      | apply bullet_in_section, H | apply substring_of_concat; simpl; tauto ].
Qed.

Lemma prompt_lists_every_item_witness :
  substring_of ("  - Cancel order" +:+ strings.newline) (config.Prompt ordersService).
Proof.
  apply (prompt_lists_every_item ordersService "Cancel order").
  right; left. simpl. tauto.
Defined.

(** * White space around filenames *)

Lemma rev_app_spec (s1 s2 : string) :
  String.rev_app s1 s2 = String.rev s1 +:+ s2.
Proof.
  unfold String.rev. revert s2.
  induction s1 as [|a s1 IH]; intros s2; [reflexivity |].
  cbn [String.rev_app]. rewrite IH, (IH (String a "")).
  now rewrite append_assoc.
Qed.

Lemma rev_cons (a : ascii) (s : string) :
  String.rev (String a s) = String.rev s +:+ String a "".
Proof. unfold String.rev at 1. cbn [String.rev_app]. apply rev_app_spec. Qed.

Lemma rev_append (a b : string) :
  String.rev (a +:+ b) = String.rev b +:+ String.rev a.
Proof.
  induction a as [|x a IH]; sapp.
  - now rewrite append_empty_r.
  - now rewrite !rev_cons, IH, append_assoc.
Qed.

Lemma rev_involutive (s : string) : String.rev (String.rev s) = s.
Proof.
  induction s as [|a s IH]; [reflexivity |].
  rewrite rev_cons, rev_append, IH. reflexivity.
Qed.

Lemma length_rev (s : string) : String.length (String.rev s) = String.length s.
Proof.
  induction s as [|a s IH]; [reflexivity |].
  rewrite rev_cons, length_append, IH. simpl. lia.
Qed.

Lemma length_drop (n : nat) (s : string) :
  String.length (strings.drop n s) = String.length s - n.
Proof.
  revert s. induction n as [|n IH]; intros [|c s]; simpl; auto; lia.
Qed.

Lemma drop_drop (j k : nat) (s : string) :
  strings.drop k (strings.drop j s) = strings.drop (j + k) s.
Proof.
  revert s. induction j as [|j IH]; intros s; [reflexivity |].
  destruct s as [|c s]; simpl; [now destruct k | apply IH].
Qed.

Section Trimming.

Variable table : list string.
Hypothesis table_nonempty : Forall (fun e => e <> "") table.

Lemma spaceWidth_zero (s : string) :
  strings.spaceWidth table s = 0 <->
  forall e, In e table -> String.prefix e s = false.
Proof.
  unfold strings.spaceWidth.
  destruct (List.find (fun e => String.prefix e s) table) as [e|] eqn:E.
  - apply List.find_some in E. destruct E as [Hin Hp].
    rewrite List.Forall_forall in table_nonempty.
    pose proof (table_nonempty e Hin) as Hne.
    split.
    + intros H0. destruct e; [congruence | discriminate].
    + intros H. rewrite (H e Hin) in Hp. discriminate.
  - split; [|reflexivity]. intros _ e Hin.
    pose proof (List.find_none _ _ E e Hin) as H. exact H.
Qed.

Lemma spaceWidth_empty : strings.spaceWidth table "" = 0.
Proof.
  apply spaceWidth_zero. intros e Hin.
  rewrite List.Forall_forall in table_nonempty.
  pose proof (table_nonempty e Hin). now destruct e.
Qed.

Lemma trimLeading_fixed (fuel : nat) (s : string) :
  strings.spaceWidth table s = 0 -> strings.trimLeading table fuel s = s.
Proof. intros H. destruct fuel; simpl; [reflexivity | now rewrite H]. Qed.

Lemma trimLeading_trimmed (fuel : nat) (s : string) :
  String.length s <= fuel ->
  strings.spaceWidth table (strings.trimLeading table fuel s) = 0.
Proof.
  revert s. induction fuel as [|fuel IH]; intros s Hlen.
  - destruct s; [apply spaceWidth_empty | simpl in Hlen; lia].
  - cbn [strings.trimLeading].
    destruct (strings.spaceWidth table s) as [|w] eqn:E; [exact E |].
    apply IH. rewrite length_drop. lia.
Qed.

Lemma trimLeading_drop (fuel : nat) (s : string) :
  exists k, strings.trimLeading table fuel s = strings.drop k s.
Proof.
  revert s. induction fuel as [|fuel IH]; intros s; [now exists 0 |].
  cbn [strings.trimLeading].
  destruct (strings.spaceWidth table s) as [|w]; [now exists 0 |].
  destruct (IH (strings.drop (S w) s)) as [k ->].
  exists (S w + k). apply drop_drop.
Qed.

Lemma spaceWidth_of_prefix (u v rest : string) :
  strings.spaceWidth table u = 0 -> u = v +:+ rest ->
  strings.spaceWidth table v = 0.
Proof.
  rewrite !spaceWidth_zero. intros Hu -> e Hin.
  destruct (String.prefix e v) eqn:Hp; [|reflexivity].
  apply (HasPrefix_spec v e) in Hp. destruct Hp as [r ->].
  rewrite <- (Hu e Hin). symmetry. apply (HasPrefix_spec _ e).
  exists (r +:+ rest). now rewrite append_assoc.
Qed.

End Trimming.

Lemma spaces_nonempty : Forall (fun e => e <> "") strings.spaces.
Proof. vm_compute. repeat constructor; discriminate. Qed.

Lemma spacesRev_nonempty : Forall (fun e => e <> "") strings.spacesRev.
Proof. vm_compute. repeat constructor; discriminate. Qed.

(** What [TrimSpace] returns starts with no space rune and ends with
    none. *)
Lemma TrimSpace_trimmed (s : string) :
  strings.spaceWidth strings.spaces (strings.TrimSpace s) = 0 /\
  strings.spaceWidth strings.spacesRev (String.rev (strings.TrimSpace s)) = 0.
Proof.
  unfold strings.TrimSpace, strings.TrimRightSpace.
  set (u := strings.TrimLeftSpace s).
  assert (Hu : strings.spaceWidth strings.spaces u = 0)
    by (apply trimLeading_trimmed; [apply spaces_nonempty | lia]).
  set (w := strings.trimLeading strings.spacesRev (String.length u) (String.rev u)).
  assert (Hw : strings.spaceWidth strings.spacesRev w = 0)
    by (apply trimLeading_trimmed; [apply spacesRev_nonempty | rewrite length_rev; lia]).
  split; [| now rewrite rev_involutive].
  destruct (trimLeading_drop strings.spacesRev (String.length u) (String.rev u)) as [k Hk].
  fold w in Hk.
  apply (spaceWidth_of_prefix strings.spaces spaces_nonempty u _
           (String.rev (strings.take k (String.rev u))) Hu).
  rewrite Hk, <- rev_append, take_drop. symmetry. apply rev_involutive.
Qed.

Lemma TrimSpace_fixed (s : string) :
  strings.spaceWidth strings.spaces s = 0 ->
  strings.spaceWidth strings.spacesRev (String.rev s) = 0 ->
  strings.TrimSpace s = s.
Proof.
  intros Hl Hr. unfold strings.TrimSpace, strings.TrimRightSpace, strings.TrimLeftSpace.
  rewrite (trimLeading_fixed strings.spaces _ s Hl).
  rewrite (trimLeading_fixed strings.spacesRev _ _ Hr).
  apply rev_involutive.
Qed.

Lemma TrimSpace_idempotent (s : string) :
  strings.TrimSpace (strings.TrimSpace s) = strings.TrimSpace s.
Proof. destruct (TrimSpace_trimmed s). now apply TrimSpace_fixed. Qed.

Lemma hintFilename_trimmed (old line : string) :
  strings.TrimSpace old = old ->
  strings.TrimSpace (hintFilename old line) = hintFilename old line.
Proof.
  intros Hold. unfold hintFilename.
  destruct (isHint line); [|exact Hold].
  destruct (strings.SplitN2 line strings.colon) as [|p1 [|p2 [|p3 ps]]];
    auto using TrimSpace_idempotent.
Qed.

Lemma fold_hintFilename_trimmed (body : list string) (old : string) :
  strings.TrimSpace old = old ->
  strings.TrimSpace (fold_left hintFilename body old) = fold_left hintFilename body old.
Proof.
  revert old. induction body as [|line body IH]; intros old Hold; [exact Hold |].
  simpl. apply IH. now apply hintFilename_trimmed.
Qed.

(** X19: the filename of every artifact the extractor returns is trimmed:
    [TrimSpace] leaves it as it is, so it neither starts nor ends with a
    white space rune, whatever space the hint line had around the name. *)
Theorem filenames_are_trimmed (output : string) (art : Artifact) :
  In art (ParseArtifacts output) ->
  strings.TrimSpace (Filename art) = Filename art /\
  (forall e, In e strings.spaces -> strings.HasPrefix (Filename art) e = false) /\
  (forall e, In e strings.spacesRev ->
     strings.HasPrefix (String.rev (Filename art)) e = false).
Proof.
  intros Hin. destruct (ParseArtifacts_madeOf _ _ Hin) as (body & _ & _ & _ & _ & Hf).
  assert (Ht : strings.TrimSpace (Filename art) = Filename art).
  { rewrite Hf. now apply fold_hintFilename_trimmed. }
  split; [exact Ht |].
  destruct (TrimSpace_trimmed (Filename art)) as [Hl Hr]. rewrite Ht in Hl, Hr.
  split.
  - now apply (spaceWidth_zero strings.spaces spaces_nonempty).
  - now apply (spaceWidth_zero strings.spacesRev spacesRev_nonempty).
Qed.

Lemma filenames_are_trimmed_witness :
  strings.TrimSpace "main.go" = "main.go".
Proof.
  apply (filenames_are_trimmed threeBlocks
           {| Filename := "main.go";
              Content := "// file: main.go
package main";
              Language := "go" |}).
  left. reflexivity.
Defined.
